(** * Section detection and image slicing of the landing-page analyzer

    A shallow embedding of the two variants of [takeScreenshots] that the
    repository carries:

    - [src/unnamed/part_000]: scroll loop, the section detector with
      drill-down, landmark fallback and mega-container collapse, and a slicer
      that cuts full-width strips ([Math.round], skip of invalid clips);
    - [src/app/api/analyze/route.js]: a simpler detector and a slicer that
      floors the rectangle and clamps it against the raster ([Math.floor]).

    Numbers.  JavaScript numbers are IEEE doubles.  Every double is a
    rational, so coordinates are embedded as [Q] and the arithmetic of the
    source ([+], [-], [*], comparisons) is embedded as exact rational
    arithmetic; the rounding error of the double operations is not modelled.
    Counters that only ever hold integers ([totalHeight] of the scroll loop,
    clip fields after [Math.round]/[Math.floor]) are embedded as [Z]. *)

From Stdlib Require Import List ZArith QArith Qround Qminmax String Bool Arith Lia Lqa.
From Stdlib Require Import Sorted Permutation.
From Equations Require Import Equations.
Import ListNotations.

Open Scope Q_scope.

(** ** JavaScript number helpers *)

(** [a > b] on numbers. *)
Definition Qgt_bool (a b : Q) : bool := negb (Qle_bool a b).

(** [Math.floor]. *)
Definition Math_floor (v : Q) : Z := Qfloor v.

(** [Math.round]: the nearest integer, ties towards +infinity. *)
Definition Math_round (v : Q) : Z := Qfloor (v + (1 # 2)).

(** ** The DOM as the in-page scripts see it *)

Module Dom.

(** The four computed-style properties the detector reads. *)
Record Style := mkStyle {
  display : string;
  visibility : string;
  opacity : string;
  position : string
}.

(** A [DOMRect]: [x], [y], [width], [height] are stored, the edges are
    derived as the Geometry Interfaces standard defines them. *)
Record DOMRect := mkRect {
  x : Q;
  y : Q;
  width : Q;
  height : Q
}.

Definition top (r : DOMRect) : Q := Qmin (y r) (y r + height r).
Definition bottom (r : DOMRect) : Q := Qmax (y r) (y r + height r).
Definition left (r : DOMRect) : Q := Qmin (x r) (x r + width r).
Definition right (r : DOMRect) : Q := Qmax (x r) (x r + width r).

(** An element node.  [eid] is the identity of the node: JavaScript's
    [===]/[!==] on elements compares identities, never contents.
    [getComputedStyle(el)] and [el.getBoundingClientRect()] are the fields
    [style] and [rect]: the detector runs synchronously on one layout. *)
#[warnings="-register-all"]
Inductive Element := mkElement {
  eid : nat;
  localName : string;
  style : Style;
  rect : DOMRect;
  children : list Element
}.

(** [a === b] on element references. *)
Definition sameNode (a b : Element) : bool := Nat.eqb (eid a) (eid b).

(** Number of nodes of a subtree; the drill-down loops descend along it. *)
Fixpoint esize (e : Element) : nat :=
  match e with
  | mkElement _ _ _ _ ch => S (list_sum (map esize ch))
  end.

(** The page at the time an in-page script runs. *)
Record Page := mkPage {
  body : Element;
  scrollY : Q
}.

(** [root.querySelector(name)] for a type selector: the first element in
    tree order (pre-order) whose local name is [name]. The search starts at
    [document.body], the root of the embedded tree. *)
Fixpoint querySelector (name : string) (el : Element) : option Element :=
  match el with
  | mkElement _ ln _ _ ch =>
      if String.eqb ln name then Some el
      else (fix firstIn (l : list Element) : option Element :=
              match l with
              | [] => None
              | c :: l' =>
                  match querySelector name c with
                  | Some r => Some r
                  | None => firstIn l'
                  end
              end) ch
  end.

End Dom.

Import Dom.

(** ** [Array.prototype.sort] with the comparator [(a, b) => key a - key b]

    The sort of the language is stable and, for a consistent comparator,
    yields the elements in ascending order of the key.  It is embedded as a
    stable insertion sort. *)

Section StableSort.
Context {A : Type}.
Variable key : A -> Q.

Fixpoint insertBy (a : A) (l : list A) : list A :=
  match l with
  | [] => [a]
  | b :: l' => if Qle_bool (key a) (key b) then a :: l else b :: insertBy a l'
  end.

Definition sortBy (l : list A) : list A := fold_right insertBy [] l.
End StableSort.

(** ** The section detector of [src/unnamed/part_000] (lines 41-105) *)

Module Detector.

(** A section as the in-page script returns it. *)
Record Section_ := mkSection {
  y_start : Q;
  y_end : Q
}.

(** Lines 43-52.  Children of an element are elements, so the guard
    [!el || typeof el.getBoundingClientRect !== 'function'] never fires. *)
Definition isPotentialSection (el : Element) : bool :=
  let st := style el in
  if String.eqb (display st) "none"
     || String.eqb (visibility st) "hidden"
     || String.eqb (opacity st) "0"
     || String.eqb (position st) "fixed"
  then false
  else
    let r := rect el in
    Qgt_bool (height r) 50 && Qgt_bool (width r) 100.

(** Line 54. *)
Definition getSections (container : Element) : list Element :=
  filter isPotentialSection (children container).

Lemma esize_child (c : Element) (e : Element) :
  In c (children e) -> (esize c < esize e)%nat.
Proof.
  destruct e as [i n s r ch]; simpl.
  induction ch as [|d ch IH]; simpl; intros H; [contradiction|].
  destruct H as [->|H]; [lia|]. specialize (IH H). lia.
Qed.

Lemma getSections_child (c e : Element) :
  In c (getSections e) -> (esize c < esize e)%nat.
Proof.
  unfold getSections. intros H. apply filter_In in H. apply esize_child, H.
Qed.

(** Keeps the equation of a scrutinee for the termination proof. *)
Definition inspect {A : Type} (a : A) : {b : A | a = b} := exist _ a eq_refl.

(** Lines 58-62 (and 68-72): the loop
    [while (candidateElements.length === 1) { container = candidateElements[0];
       candidateElements = getSections(container); }]
    started with [candidateElements = getSections(container)]; the result is
    the value of [candidateElements] when the loop exits. *)
Equations? drillDown (container : Element) : list Element
  by wf (esize container) lt :=
  drillDown container with inspect (getSections container) := {
    | exist _ [single] Heq => drillDown single;
    | exist _ candidateElements _ => candidateElements }.
Proof.
  apply getSections_child. rewrite Heq. left. reflexivity.
Qed.

(** Line 79. *)
Definition totalHeight (candidateElements : list Element) : Q :=
  fold_left (fun sum el => sum + height (rect el)) candidateElements 0.

(** Line 80. *)
Definition megaContainer (candidateElements : list Element) : option Element :=
  let total := totalHeight candidateElements in
  find (fun el => Qgt_bool (height (rect el)) (total * (8 # 10))) candidateElements.

(** Lines 57-76: the candidates after the drill-down from [body] and the
    fallback to [main]. *)
Definition candidates (pg : Page) : list Element :=
  let candidateElements := drillDown (body pg) in
  let mainEl := querySelector "main" (body pg) in
  match (List.length candidateElements <=? 2)%nat, mainEl with
  | true, Some mainContainer =>
      let mainCandidates := drillDown mainContainer in
      if (List.length candidateElements <? List.length mainCandidates)%nat
      then mainCandidates
      else candidateElements
  | _, _ => candidateElements
  end.

(** Lines 82-92. *)
Definition collapse (candidateElements : list Element) : list Element :=
  match megaContainer candidateElements with
  | Some mega =>
      let innerSections := getSections mega in
      let peerSections :=
        filter (fun el => negb (sameNode el mega)) candidateElements in
      innerSections ++ peerSections
  | None => candidateElements
  end.

(** Lines 82-96: from the candidates to the sorted [finalElements]. *)
Definition finalOf (candidateElements : list Element) : list Element :=
  let kept :=
    filter (fun el => Qgt_bool (height (rect el)) 50) (collapse candidateElements) in
  sortBy (fun el => top (rect el)) kept.

(** The value of [finalElements] after line 96. *)
Definition finalElements (pg : Page) : list Element :=
  finalOf (candidates pg).

(** Lines 98-104. *)
Definition toSection (pg : Page) (el : Element) : Section_ :=
  let r := rect el in
  {| y_start := top r + scrollY pg; y_end := bottom r + scrollY pg |}.

(** The value of [sections] (line 41). *)
Definition sections (pg : Page) : list Section_ :=
  map (toSection pg) (finalElements pg).

End Detector.

(** ** Visibility predicate and drill-down as the spec words them

    Steps 1 and 2 of the detector in the words of the spec, as relations on
    the DOM that use none of the functions above: which elements qualify,
    which children of a container are the qualifying ones, and where the
    drill-down from a container ends.  The functions of the source are
    compared with them below. *)

(** Step 1: the visibility predicate. *)
Definition Qualifying (el : Element) : Prop :=
  display (style el) <> "none"%string /\
  visibility (style el) <> "hidden"%string /\
  opacity (style el) <> "0"%string /\
  position (style el) <> "fixed"%string /\
  50 < height (rect el) /\
  100 < width (rect el).

(** [QualifyingAmong l picked]: [picked] are the qualifying elements of [l],
    all of them, in document order. *)
Inductive QualifyingAmong : list Element -> list Element -> Prop :=
| among_nil : QualifyingAmong [] []
| among_keep (el : Element) (l picked : list Element) :
    Qualifying el -> QualifyingAmong l picked ->
    QualifyingAmong (el :: l) (el :: picked)
| among_drop (el : Element) (l picked : list Element) :
    ~ Qualifying el -> QualifyingAmong l picked ->
    QualifyingAmong (el :: l) picked.

(** Step 2: [DrillsTo container found]: searching from [container], the
    search moves into the single qualifying child as long as there is
    exactly one, and ends with the qualifying children [found] of the
    container it has reached. *)
Inductive DrillsTo : Element -> list Element -> Prop :=
| drills_end (container : Element) (found : list Element) :
    QualifyingAmong (children container) found ->
    List.length found <> 1%nat ->
    DrillsTo container found
| drills_into (container single : Element) (found : list Element) :
    QualifyingAmong (children container) [single] ->
    DrillsTo single found ->
    DrillsTo container found.

(** ** The scroll loop of [takeScreenshots] (lines 22-37)

    The callback of [setInterval] is one step of a state machine.  What the
    browser does is not in the repository, so the page is abstract:
    [scrollHeight] reads [document.body.scrollHeight], [scrollBy] is
    [window.scrollBy(0, d)] and [between] is whatever happens to the page
    from one firing of the timer to the next (lazy loading, layout). *)

Module Scroll.

Section Loop.
Variable PageState : Type.
Variable scrollHeight : PageState -> Z.
Variable scrollBy : Z -> PageState -> PageState.
Variable between : PageState -> PageState.

(** Line 25. *)
Definition distance : Z := 200.

(** The variables the callback closes over, and the page. *)
Record LoopState := mkLoop {
  totalHeight : Z;
  page : PageState
}.

(** Outcome of one firing of the timer: the timer stays armed, or
    [clearInterval] and [resolve] were called. *)
Inductive Firing :=
| Armed (s : LoopState)
| Resolved (s : LoopState).

(** Lines 26-35: one firing of the callback. *)
Definition fire (s : LoopState) : Firing :=
  let scrollHeight_ := scrollHeight (page s) in
  let page' := scrollBy distance (page s) in
  let totalHeight' := (totalHeight s + distance)%Z in
  if (totalHeight' >=? scrollHeight_)%Z
  then Resolved (mkLoop totalHeight' page')
  else Armed (mkLoop totalHeight' (between page')).

(** Line 24 and the first wait of the timer. *)
Definition start (p : PageState) : LoopState := mkLoop 0 (between p).

(** The promise: fire until resolved.  [Some (n, s)] when the promise
    resolves at the [n]-th firing in state [s]; [None] when [fuel]
    firings did not resolve it. *)
Fixpoint fireUntilResolved (fuel : nat) (s : LoopState) : option (nat * LoopState) :=
  match fuel with
  | O => None
  | S fuel' =>
      match fire s with
      | Resolved s' => Some (1%nat, s')
      | Armed s' =>
          match fireUntilResolved fuel' s' with
          | Some (n, r) => Some (S n, r)
          | None => None
          end
      end
  end.

(** The page as the [k]-th firing (counted from 0) finds it. *)
Fixpoint pageAt (p : PageState) (k : nat) : PageState :=
  match k with
  | O => between p
  | S k' => between (scrollBy distance (pageAt p k'))
  end.
End Loop.

Arguments totalHeight {PageState} _.
Arguments page {PageState} _.
Arguments mkLoop {PageState} _ _.
Arguments Armed {PageState} _.
Arguments Resolved {PageState} _.

End Scroll.

(** ** Files, console and exceptions of a run *)

Module Clip.
(** The object handed to [sharp(...).extract]. *)
Record t := mk {
  left : Z;
  top : Z;
  width : Z;
  height : Z
}.
End Clip.

Module Run.

(** Files of the screenshot directory of one run. *)
Inductive File :=
| master_png
| section_png (n : nat).

Definition File_eq_dec (a b : File) : {a = b} + {a <> b}.
Proof. decide equality. apply Nat.eq_dec. Defined.

Definition isSectionFile (f : File) : bool :=
  match f with section_png _ => true | master_png => false end.

(** What the slicing loop prints. *)
Inductive Event :=
| Skipping (i : nat) (clip : Clip.t)
| Extracting (i : nat) (clip : Clip.t).

Record Store := mkStore {
  files : list File;
  console : list Event
}.

Definition emptyStore : Store := mkStore [] [].

Inductive Outcome (A : Type) :=
| Returned (a : A)
| Thrown (message : string).
Arguments Returned {A} _.
Arguments Thrown {A} _.

(** An awaited computation: it returns or throws, and leaves a store. *)
Definition IO (A : Type) : Type := Store -> Outcome A * Store.

Definition ret {A} (a : A) : IO A := fun st => (Returned a, st).
Definition throw {A} (message : string) : IO A := fun st => (Thrown message, st).
Definition bind {A B} (m : IO A) (k : A -> IO B) : IO B :=
  fun st =>
    match m st with
    | (Returned a, st') => k a st'
    | (Thrown message, st') => (Thrown message, st')
    end.

Notation "x <- m ;; k" := (bind m (fun x => k))
  (at level 61, m at next level, right associativity).
Notation "m ;;; k" := (bind m (fun _ => k))
  (at level 61, right associativity).

(** Lifts an outcome decided outside the repository. *)
Definition await {A} (o : Outcome A) : IO A := fun st => (o, st).

Definition writeFile (f : File) : IO unit :=
  fun st => (Returned tt, mkStore (f :: remove File_eq_dec f (files st)) (console st)).

Definition print (e : Event) : IO unit :=
  fun st => (Returned tt, mkStore (files st) (console st ++ [e])).

(** The collaborators of a run: browser, renderer and image library.
    Nothing of them is in the repository; a world fixes what each call does.
    - [prepare url]: launching the browser, [new URL(url)], the name of the
      unique directory and [fs.mkdir]; returns the directory name;
    - [render url]: [page.goto], the viewport, the scroll loop and the
      settle delay; returns the page as the detector finds it;
    - [capture]: [page.screenshot] of the full page, [None] when it works;
    - [metadata]: pixel width and height of the captured raster;
    - [extract clip]: [sharp(...).extract(clip).toFile(...)], [None] when it
      works, the message when it rejects;
    - [unlink]: [fs.unlink] of the master file, [None] when it works. *)
Record World := mkWorld {
  prepare : string -> Outcome string;
  render : string -> Outcome Page;
  capture : option string;
  metadata : Z * Z;
  extract : Clip.t -> option string;
  unlink : option string
}.

Definition orThrow (o : option string) : IO unit :=
  match o with
  | None => ret tt
  | Some message => throw message
  end.

(** [page.screenshot({ path: masterScreenshotPath, fullPage: true })]. *)
Definition screenshot (w : World) : IO unit :=
  orThrow (capture w) ;;; writeFile master_png.

(** [sharp(master).extract(clip).toFile(path)]. *)
Definition extractToFile (w : World) (clip : Clip.t) (f : File) : IO unit :=
  orThrow (extract w clip) ;;; writeFile f.

(** [fs.unlink(masterScreenshotPath)]. *)
Definition unlinkMaster (w : World) : IO unit :=
  orThrow (unlink w) ;;;
  (fun st => (Returned tt, mkStore (remove File_eq_dec master_png (files st)) (console st))).

(** A path [/screenshots/<dir>/section-<index>.png]. *)
Record ScreenshotPath := mkPath {
  dir : string;
  index : nat
}.

Inductive Payload :=
| screenshots (paths : list ScreenshotPath)
| error (message : string).

Record Response := mkResponse {
  status : Z;
  payload : Payload
}.

(** The crops a run left on disk. *)
Definition persisted (st : Store) : list File := filter isSectionFile (files st).

End Run.

(** ** The slicer and the handler of [src/unnamed/part_000] *)

Module Part000.
Import Run.

(** Lines 124-129. *)
Definition clipOf (section : Detector.Section_) : Clip.t :=
  {| Clip.left := 0;
     Clip.top := Math_round (Detector.y_start section);
     Clip.width := 1280;
     Clip.height := Math_round (Detector.y_end section - Detector.y_start section) |}.

(** Line 132. *)
Definition invalid (clip : Clip.t) : bool :=
  (Clip.height clip <=? 0)%Z || (Clip.width clip <=? 0)%Z.

(** Lines 120-144: the iterations of the [for] loop from index [i] on, over
    the sections not yet visited. *)
Fixpoint sliceFrom (w : World) (i : nat) (sections : list Detector.Section_) : IO unit :=
  match sections with
  | [] => ret tt
  | section :: rest =>
      let clip := clipOf section in
      if invalid clip then
        print (Skipping (i + 1) clip) ;;;
        sliceFrom w (S i) rest
      else
        print (Extracting (i + 1) clip) ;;;
        extractToFile w clip (section_png (i + 1)) ;;;
        sliceFrom w (S i) rest
  end.

(** Lines 109-149: what [takeScreenshots] does with the detected sections. *)
Definition sliceSections (w : World) (sections : list Detector.Section_) : IO nat :=
  if (List.length sections =? 0)%nat then ret 0%nat
  else
    screenshot w ;;;
    sliceFrom w 0 sections ;;;
    unlinkMaster w ;;;
    ret (List.length sections).

(** Lines 15-150. *)
Definition takeScreenshots (w : World) (url : string) : IO nat :=
  pg <- await (render w url) ;;
  sliceSections w (Detector.sections pg).

(** Line 176: [Array.from({ length: n }, (_, i) => ...section-${i + 1}.png)]. *)
Definition screenshotPaths (uniqueDir : string) (numScreenshots : nat) : list ScreenshotPath :=
  map (fun i => mkPath uniqueDir (i + 1)) (seq 0 numScreenshots).

(** Lines 152-194.  [url] is the field of the request body; [!url] holds
    when it is missing or the empty string.  A run starts in a directory of
    its own, hence in the empty store.  The model starts where the body has
    been parsed into an object: [request.json()] and the destructuring of
    line 153 stand outside the [try], and a body that does not parse makes
    the handler reject without an answer; this and [browser.close()] of the
    [finally] block are not part of the model. *)
Definition POST (w : World) (url : option string) : Response * Store :=
  match url with
  | None => (mkResponse 400 (error "URL is required"), emptyStore)
  | Some EmptyString => (mkResponse 400 (error "URL is required"), emptyStore)
  | Some u =>
      match (uniqueDir <- await (prepare w u) ;;
             numScreenshots <- takeScreenshots w u ;;
             ret (uniqueDir, numScreenshots)) emptyStore with
      | (Returned (uniqueDir, numScreenshots), st) =>
          (mkResponse 200 (screenshots (screenshotPaths uniqueDir numScreenshots)), st)
      | (Thrown message, st) =>
          (mkResponse 500 (error ("Failed to analyze the URL. " ++ message)), st)
      end
  end.

End Part000.

(** ** The detector and the slicer of [src/app/api/analyze/route.js] *)

Module Route.
Import Run.

(** The objects of [sectionCoordinates] (lines 73-81). *)
Record Section_ := mkSection {
  x : Q;
  y : Q;
  width : Q;
  height : Q
}.

(** Lines 43-51. *)
Definition isPotentialSection (el : Element) : bool :=
  let st := style el in
  if String.eqb (display st) "none"
     || String.eqb (visibility st) "hidden"
     || String.eqb (opacity st) "0"
  then false
  else
    let r := rect el in
    Qgt_bool (Dom.width r) 100 && Qgt_bool (Dom.height r) 100.

(** Lines 53-55. *)
Definition getSections (container : Element) : list Element :=
  filter isPotentialSection (children container).

(** Lines 57-69. *)
Definition foundSections (pg : Page) : list Element :=
  let container :=
    match querySelector "main" (body pg) with
    | Some mainEl => mainEl
    | None => body pg
    end in
  let found := getSections container in
  if (List.length found <=? 1)%nat then
    let parent := match found with first :: _ => first | [] => container end in
    let innerSections := getSections parent in
    if (1 <? List.length innerSections)%nat then innerSections else found
  else found.

(** Lines 73-83. *)
Definition sections (pg : Page) : list Section_ :=
  map (fun el =>
         let r := rect el in
         {| x := Dom.left r;
            y := Dom.top r + scrollY pg;
            width := Dom.width r;
            height := Dom.height r |})
      (foundSections pg).

(** Lines 105-110. *)
Definition initialClip (section : Section_) : Clip.t :=
  {| Clip.left := Math_floor (x section);
     Clip.top := Math_floor (y section);
     Clip.width := Math_floor (width section);
     Clip.height := Math_floor (height section) |}.

(** Lines 113-120, the four assignments in the order of the source. *)
Definition clampClip (meta : Z * Z) (clip : Clip.t) : Clip.t :=
  let '(metaWidth, metaHeight) := meta in
  let clip1 :=
    if (metaWidth <? Clip.left clip + Clip.width clip)%Z
    then Clip.mk (Clip.left clip) (Clip.top clip) (metaWidth - Clip.left clip) (Clip.height clip)
    else clip in
  let clip2 :=
    if (metaHeight <? Clip.top clip1 + Clip.height clip1)%Z
    then Clip.mk (Clip.left clip1) (Clip.top clip1) (Clip.width clip1) (metaHeight - Clip.top clip1)
    else clip1 in
  let clip3 :=
    if (Clip.left clip2 <? 0)%Z
    then Clip.mk 0 (Clip.top clip2) (Clip.width clip2) (Clip.height clip2)
    else clip2 in
  if (Clip.top clip3 <? 0)%Z
  then Clip.mk (Clip.left clip3) 0 (Clip.width clip3) (Clip.height clip3)
  else clip3.

(** Lines 105-120: the clip handed to [extract]. *)
Definition clipOf (meta : Z * Z) (section : Section_) : Clip.t :=
  clampClip meta (initialClip section).

(** Lines 101-130. *)
Fixpoint sliceFrom (w : World) (i : nat) (sections : list Section_) : IO unit :=
  match sections with
  | [] => ret tt
  | section :: rest =>
      let clip := clipOf (metadata w) section in
      print (Extracting (i + 1) clip) ;;;
      extractToFile w clip (section_png (i + 1)) ;;;
      sliceFrom w (S i) rest
  end.

(** Lines 88-135. *)
Definition sliceSections (w : World) (sections : list Section_) : IO nat :=
  if (List.length sections =? 0)%nat then ret 0%nat
  else
    screenshot w ;;;
    sliceFrom w 0 sections ;;;
    unlinkMaster w ;;;
    ret (List.length sections).

(** Lines 15-136. *)
Definition takeScreenshots (w : World) (url : string) : IO nat :=
  pg <- await (render w url) ;;
  sliceSections w (sections pg).

End Route.

(** ** The handler of [src/app/api/analyze/route.js] (lines 138-180) *)

Module RouteHandler.
Import Run.

(** Line 162, the same expression as in [part_000]. *)
Definition screenshotPaths (uniqueDir : string) (numScreenshots : nat) : list ScreenshotPath :=
  map (fun i => mkPath uniqueDir (i + 1)) (seq 0 numScreenshots).

(** Lines 138-180. *)
Definition POST (w : World) (url : option string) : Response * Store :=
  match url with
  | None => (mkResponse 400 (error "URL is required"), emptyStore)
  | Some EmptyString => (mkResponse 400 (error "URL is required"), emptyStore)
  | Some u =>
      match (uniqueDir <- await (prepare w u) ;;
             numScreenshots <- Route.takeScreenshots w u ;;
             ret (uniqueDir, numScreenshots)) emptyStore with
      | (Returned (uniqueDir, numScreenshots), st) =>
          (mkResponse 200 (screenshots (screenshotPaths uniqueDir numScreenshots)), st)
      | (Thrown message, st) =>
          (mkResponse 500 (error ("Failed to analyze the URL. " ++ message)), st)
      end
  end.

End RouteHandler.

(** ** The page component [Home] (second part of [src/app/layout.js]) *)

Module Home.
Import Run.

(** The four [useState] cells.  [screenshots] is [None] when the cell holds
    [undefined]. *)
Record State := mkState {
  url : string;
  loading : bool;
  screenshots : option (list ScreenshotPath);
  error : option string
}.

(** Lines 20-23. *)
Definition initial : State := mkState "" false (Some []) None.

(** Line 67: [onChange] of the input. *)
Definition setUrl (value : string) (st : State) : State :=
  mkState value (loading st) (screenshots st) (error st).

(** [response.ok]. *)
Definition ok (r : Response) : bool :=
  ((200 <=? status r) && (status r <=? 299))%Z.

(** [body.error], [None] when the body has no such field. *)
Definition errorField (p : Payload) : option string :=
  match p with
  | Run.error message => Some message
  | Run.screenshots _ => None
  end.

(** [body.screenshots], [None] when the body has no such field. *)
Definition screenshotsField (p : Payload) : option (list ScreenshotPath) :=
  match p with
  | Run.screenshots paths => Some paths
  | Run.error _ => None
  end.

(** [errorData.error || 'An unknown error occurred.']: the empty string and
    [undefined] are falsy. *)
Definition errorMessage (p : Payload) : string :=
  match errorField p with
  | Some (String c rest) => String c rest
  | _ => "An unknown error occurred."
  end.

(** Lines 26-29: the part of [handleSubmit] before the request. *)
Definition submitStart (st : State) : State :=
  mkState (url st) true (Some []) None.

(** Lines 31-51: the part of [handleSubmit] after [fetch] has settled;
    [fetched] is the response, or the message [fetch] threw. *)
Definition submitEnd (fetched : Outcome Response) (st : State) : State :=
  match fetched with
  | Returned response =>
      if negb (ok response)
      then mkState (url st) false (screenshots st) (Some (errorMessage (payload response)))
      else mkState (url st) false (screenshotsField (payload response)) (error st)
  | Thrown message =>
      mkState (url st) false (screenshots st) (Some message)
  end.

(** Lines 25-52. *)
Definition handleSubmit (fetched : Outcome Response) (st : State) : State :=
  submitEnd fetched (submitStart st).


(** Lines 87-95: the cards of the result grid, heading number and image
    path. *)
Definition cards (paths : list ScreenshotPath) : list (nat * ScreenshotPath) :=
  combine (seq 1 (List.length paths)) paths.

End Home.

(** ** Example pages and worlds *)

Module Examples.
Import Run.

Definition visible : Style := mkStyle "block" "visible" "1" "static".

(** A visible, statically positioned [div] at [(x, y)] of the given size. *)
Definition block (id : nat) (x y w h : Q) (kids : list Element) : Element :=
  mkElement id "div" visible (mkRect x y w h) kids.

Definition bodyOf (h : Q) (kids : list Element) : Element :=
  mkElement 0 "body" visible (mkRect 0 0 1280 h) kids.

(** [body > div > div > [A, B, C]], three stacked sections. *)
Definition stackA : Element := block 3 0 0 1280 300 [].
Definition stackB : Element := block 4 0 300 1280 300 [].
Definition stackC : Element := block 5 0 600 1280 400 [].
Definition stackInner : Element := block 2 0 0 1280 1000 [stackA; stackB; stackC].
Definition stackOuter : Element := block 1 0 0 1280 1000 [stackInner].
Definition stackPage : Page := mkPage (bodyOf 1000 [stackOuter]) 0.

(** The same shape, with [A] taller than 80% of the three heights. *)
Definition tallA : Element := block 3 0 0 1280 1000 [].
Definition tallB : Element := block 4 0 1000 1280 60 [].
Definition tallC : Element := block 5 0 1060 1280 60 [].
Definition tallInner : Element := block 2 0 0 1280 1120 [tallA; tallB; tallC].
Definition tallOuter : Element := block 1 0 0 1280 1120 [tallInner].
Definition tallPage : Page := mkPage (bodyOf 1120 [tallOuter]) 0.

(** The same shape, laid out bottom-up ([A] is drawn below [B] and [C]). *)
Definition lowA : Element := block 3 0 600 1280 300 [].
Definition lowB : Element := block 4 0 0 1280 300 [].
Definition lowC : Element := block 5 0 300 1280 300 [].
Definition lowInner : Element := block 2 0 0 1280 900 [lowA; lowB; lowC].
Definition lowOuter : Element := block 1 0 0 1280 900 [lowInner].
Definition lowPage : Page := mkPage (bodyOf 900 [lowOuter]) 0.

(** The same shape, with the outer wrapper pinned to the viewport. *)
Definition pinned : Style := mkStyle "block" "visible" "1" "fixed".
Definition pinnedOuter : Element :=
  mkElement 1 "div" pinned (mkRect 0 0 1280 1000) [stackInner].
Definition pinnedPage : Page := mkPage (bodyOf 1000 [pinnedOuter]) 0.

(** A mega-container [M] (height 820) with two children and a footer [F]
    (height 180). *)
Definition megaX : Element := block 3 0 0 1280 400 [].
Definition megaY : Element := block 4 0 400 1280 420 [].
Definition megaM : Element := block 1 0 0 1280 820 [megaX; megaY].
Definition megaF : Element := block 2 0 820 1280 180 [].
Definition megaPage : Page := mkPage (bodyOf 1000 [megaM; megaF]) 0.

(** Two columns side by side: both start at the same top offset. *)
Definition columnL : Element := block 1 0 0 640 500 [].
Definition columnR : Element := block 2 640 0 640 500 [].
Definition columnsPage : Page := mkPage (bodyOf 500 [columnL; columnR]) 0.

(** Header and [main] at body level; inside [main] a hidden banner and one
    wrapper; inside the wrapper three sections and a thin divider. *)
Definition hiddenStyle : Style := mkStyle "none" "visible" "1" "static".
Definition deepHeader : Element := block 1 0 0 1280 80 [].
Definition deepBanner : Element :=
  mkElement 3 "div" hiddenStyle (mkRect 0 80 1280 200) [].
Definition deepS1 : Element := block 5 0 80 1280 300 [].
Definition deepDivider : Element := block 6 0 380 1280 20 [].
Definition deepS2 : Element := block 7 0 400 1280 300 [].
Definition deepS3 : Element := block 8 0 700 1280 300 [].
Definition deepWrapper : Element :=
  block 4 0 80 1280 920 [deepS1; deepDivider; deepS2; deepS3].
Definition deepMain : Element :=
  mkElement 2 "main" visible (mkRect 0 80 1280 920)
            [deepBanner; deepWrapper].
Definition deepPage : Page :=
  mkPage (bodyOf 1000 [deepHeader; deepMain]) 0.

(** A page without any element of section size. *)
Definition emptyPage : Page := mkPage (bodyOf 0 []) 0.

(** A hero that bleeds 100 pixels over both edges of the viewport, and a
    footer. *)
Definition bleedHero : Element := block 1 (-100) 0 1480 600 [].
Definition bleedFooter : Element := block 2 0 600 1280 200 [].
Definition bleedPage : Page := mkPage (bodyOf 800 [bleedHero; bleedFooter]) 0.

(** Two sections that meet at a fractional offset. *)
Definition fractionTop : Element := block 1 0 0 1280 (3006 # 10) [].
Definition fractionBottom : Element := block 2 0 (3006 # 10) 1280 (2998 # 10) [].
Definition fractionPage : Page :=
  mkPage (bodyOf (6004 # 10) [fractionTop; fractionBottom]) 0.

(** A page, reduced to its scroll height, that grows by 300 pixels between
    two firings of the scroll timer until it is 1500 pixels high. *)
Definition growingPage (h : Z) : Z := Z.min (h + 300) 1500.

(** The region check of the image library: it rejects any region that is
    not a non-empty rectangle inside the image. *)
Definition insideRaster (meta : Z * Z) (clip : Clip.t) : bool :=
  ((0 <=? Clip.left clip) && (0 <=? Clip.top clip)
   && (0 <? Clip.width clip) && (0 <? Clip.height clip)
   && (Clip.left clip + Clip.width clip <=? fst meta)
   && (Clip.top clip + Clip.height clip <=? snd meta))%Z.

(** A world in which every collaborator works, the renderer shows [pg] and
    the raster has the size [meta]. *)
Definition worldOf (pg : Page) (meta : Z * Z) : World :=
  {| prepare := fun _ => Returned "example.com-2024-01-01T00-00-00.000Z"%string;
     render := fun _ => Returned pg;
     capture := None;
     metadata := meta;
     extract := fun clip =>
       if insideRaster meta clip then None
       else Some "extract_area: bad extract area"%string;
     unlink := None |}.

End Examples.

(** ** Further example pages *)

Module MoreExamples.
Import Run.

(** A page that is one screen of three blocks, the last one smaller than a
    section. *)
Definition smallFooter : Element := Examples.block 3 0 700 1280 40 [].
Definition heroBlock : Element := Examples.block 1 0 0 1280 400 [].
Definition bodyBlock : Element := Examples.block 2 0 400 1280 300 [].
Definition threeBlocks : Page :=
  mkPage (Examples.bodyOf 740 [heroBlock; bodyBlock; smallFooter]) 0.

(** A world like [Examples.worldOf] in which the renderer fails. *)
Definition offlineWorld : World :=
  {| prepare := fun _ => Returned "example.com-2024-01-01T00-00-00.000Z"%string;
     render := fun _ => Thrown "net::ERR_NAME_NOT_RESOLVED";
     capture := None;
     metadata := (1280, 800)%Z;
     extract := fun _ => None;
     unlink := None |}.

(** A page on which nothing has section size: a flat [main] with a small
    child, and a small sibling. *)
Definition tinyChild : Element := Examples.block 2 0 0 1280 40 [].
Definition tinyMain : Element :=
  mkElement 1 "main" Examples.visible (mkRect 0 0 1280 45) [tinyChild].
Definition tinySibling : Element := Examples.block 3 0 45 1280 30 [].
Definition tinyPage : Page :=
  mkPage (Examples.bodyOf 75 [tinyMain; tinySibling]) 0.

(** Three sections, the middle one a fifth of a pixel high. *)
Definition withSliver : list Detector.Section_ :=
  [ {| Detector.y_start := 0; Detector.y_end := 300 |};
    {| Detector.y_start := 300; Detector.y_end := 3002 # 10 |};
    {| Detector.y_start := 3002 # 10; Detector.y_end := 600 |} ].

End MoreExamples.


(** * Properties *)

(** ** Numbers *)

Lemma Qgt_bool_iff (a b : Q) : Qgt_bool a b = true <-> b < a.
Proof.
  unfold Qgt_bool. rewrite negb_true_iff. split.
  - intros H. apply Qnot_le_lt. intros Hle.
    apply Qle_bool_iff in Hle. congruence.
  - intros H. destruct (Qle_bool a b) eqn:E; [|reflexivity].
    apply Qle_bool_iff in E. exfalso. apply (Qlt_not_le _ _ H E).
Qed.

Lemma Qgt_bool_false_iff (a b : Q) : Qgt_bool a b = false <-> a <= b.
Proof.
  unfold Qgt_bool. rewrite negb_false_iff. apply Qle_bool_iff.
Qed.

(** [Math.round] is within half a pixel, ties upwards. *)
Lemma Math_round_spec (v : Q) :
  v - (1 # 2) < inject_Z (Math_round v) /\ inject_Z (Math_round v) <= v + (1 # 2).
Proof.
  unfold Math_round. split.
  - pose proof (Qlt_floor (v + (1 # 2))) as H.
    rewrite inject_Z_plus in H. change (inject_Z 1) with 1 in H. lra.
  - apply Qfloor_le.
Qed.

Lemma Math_floor_spec (v : Q) :
  inject_Z (Math_floor v) <= v /\ v < inject_Z (Math_floor v) + 1.
Proof.
  unfold Math_floor. split.
  - apply Qfloor_le.
  - pose proof (Qlt_floor v) as H.
    rewrite inject_Z_plus in H. exact H.
Qed.

Lemma Math_round_ge (v : Q) (n : Z) : inject_Z n <= v -> (n <= Math_round v)%Z.
Proof.
  intros H. unfold Math_round.
  rewrite <- (Qfloor_Z n). apply Qfloor_resp_le. lra.
Qed.

(** ** The stable sort *)

Section StableSortFacts.
Context {A : Type}.
Variable key : A -> Q.

Definition keyLe (a b : A) : Prop := key a <= key b.

Lemma insertBy_perm (a : A) (l : list A) : Permutation (insertBy key a l) (a :: l).
Proof.
  induction l as [|b l IH]; simpl; [reflexivity|].
  destruct (Qle_bool (key a) (key b)); [reflexivity|].
  rewrite IH. apply perm_swap.
Qed.

Lemma sortBy_perm (l : list A) : Permutation (sortBy key l) l.
Proof.
  induction l as [|a l IH]; simpl; [reflexivity|].
  rewrite insertBy_perm. now constructor.
Qed.

Lemma insertBy_sorted (a : A) (l : list A) :
  StronglySorted keyLe l -> StronglySorted keyLe (insertBy key a l).
Proof.
  induction 1 as [|b l Hs IH Hb]; simpl.
  - constructor; constructor.
  - destruct (Qle_bool (key a) (key b)) eqn:E.
    + apply Qle_bool_iff in E. constructor.
      * constructor; assumption.
      * constructor; [exact E|].
        eapply Forall_impl; [|exact Hb].
        intros c Hc. unfold keyLe in *. lra.
    + assert (key b <= key a) as Hba.
      { destruct (Qlt_le_dec (key b) (key a)) as [Hlt|Hle]; [lra|].
        apply Qle_bool_iff in Hle. congruence. }
      constructor; [exact IH|].
      eapply Permutation_Forall; [symmetry; apply insertBy_perm|].
      constructor; assumption.
Qed.

Lemma sortBy_sorted (l : list A) : StronglySorted keyLe (sortBy key l).
Proof.
  induction l as [|a l IH]; simpl; [constructor|].
  apply insertBy_sorted, IH.
Qed.

(** A list already in ascending order is left as it is. *)
Lemma sortBy_id (l : list A) : StronglySorted keyLe l -> sortBy key l = l.
Proof.
  induction 1 as [|a l Hs IH Ha]; simpl; [reflexivity|].
  rewrite IH. destruct l as [|b l]; [reflexivity|]. simpl.
  inversion Ha as [|? ? Hab _]; subst. unfold keyLe in Hab.
  apply Qle_bool_iff in Hab. now rewrite Hab.
Qed.
End StableSortFacts.

(** ** The detector *)

Module DetectorFacts.
Import Detector.

Definition qualifies (el : Element) : Prop := isPotentialSection el = true.

Lemma qualifies_size (el : Element) :
  qualifies el -> 50 < height (rect el) /\ 100 < width (rect el).
Proof.
  unfold qualifies, isPotentialSection.
  destruct (_ || _); [discriminate|].
  rewrite andb_true_iff, !Qgt_bool_iff. tauto.
Qed.

Lemma getSections_qualify (c : Element) : Forall qualifies (getSections c).
Proof.
  apply Forall_forall. intros el H. apply filter_In in H. apply H.
Qed.

(** The loop of the drill-down, as one equation. *)
Lemma drillDown_unfold (c : Element) :
  drillDown c =
  match getSections c with
  | [single] => drillDown single
  | candidateElements => candidateElements
  end.
Proof.
  rewrite drillDown_equation_1.
  destruct (inspect (getSections c)) as [l e]. simpl in e.
  revert e. destruct l as [|a [|b l]]; intros e; simpl; rewrite e; reflexivity.
Qed.

Lemma drillDown_single (c single : Element) :
  getSections c = [single] -> drillDown c = drillDown single.
Proof. intros H. rewrite drillDown_unfold, H. reflexivity. Qed.

Lemma drillDown_exit (c : Element) :
  List.length (getSections c) <> 1%nat -> drillDown c = getSections c.
Proof.
  intros H. rewrite drillDown_unfold.
  destruct (getSections c) as [|a [|b l]]; simpl in *; congruence.
Qed.

(** The loop exits with the qualifying children of some container, and
    never with exactly one candidate. *)
Lemma drillDown_result (c : Element) :
  exists container,
    drillDown c = getSections container /\
    List.length (getSections container) <> 1%nat.
Proof.
  induction c as [c IH] using (well_founded_induction
                                 (Wf_nat.well_founded_ltof _ esize)).
  destruct (Nat.eq_dec (List.length (getSections c)) 1) as [H1|H1].
  - destruct (getSections c) as [|a [|b l]] eqn:E; simpl in H1; try discriminate.
    destruct (IH a) as [k [Hk Hlen]].
    + apply getSections_child. rewrite E. now left.
    + exists k. split; [|exact Hlen]. rewrite (drillDown_single c a E). exact Hk.
  - exists c. split; [apply drillDown_exit|]; exact H1.
Qed.

Lemma drillDown_qualify (c : Element) : Forall qualifies (drillDown c).
Proof.
  destruct (drillDown_result c) as [k [-> _]]. apply getSections_qualify.
Qed.

Lemma candidates_qualify (pg : Page) : Forall qualifies (candidates pg).
Proof.
  unfold candidates.
  destruct (_ <=? 2)%nat; [|apply drillDown_qualify].
  destruct (querySelector "main" (body pg)) as [mainEl|];
    [|apply drillDown_qualify].
  destruct (_ <? _)%nat; apply drillDown_qualify.
Qed.

Lemma collapse_qualify (l : list Element) :
  Forall qualifies l -> Forall qualifies (collapse l).
Proof.
  intros H. unfold collapse. destruct (megaContainer l) as [mega|]; [|exact H].
  apply Forall_app. split; [apply getSections_qualify|].
  apply Forall_forall. intros el Hel. apply filter_In in Hel.
  rewrite Forall_forall in H. apply H, Hel.
Qed.

(** The sanity filter of line 95 keeps every qualifying element. *)
Lemma sanity_filter_id (l : list Element) :
  Forall qualifies l ->
  filter (fun el => Qgt_bool (height (rect el)) 50) l = l.
Proof.
  induction 1 as [|el l Hq _ IH]; simpl; [reflexivity|].
  apply qualifies_size in Hq. destruct Hq as [Hh _].
  apply Qgt_bool_iff in Hh. rewrite Hh, IH. reflexivity.
Qed.

Lemma finalOf_perm (l : list Element) :
  Forall qualifies l -> Permutation (finalOf l) (collapse l).
Proof.
  intros H. unfold finalOf.
  rewrite (sanity_filter_id _ (collapse_qualify l H)). apply sortBy_perm.
Qed.

Lemma finalElements_qualify (pg : Page) : Forall qualifies (finalElements pg).
Proof.
  unfold finalElements.
  eapply Permutation_Forall.
  - symmetry. apply finalOf_perm, candidates_qualify.
  - apply collapse_qualify, candidates_qualify.
Qed.

(** Edges of the rectangle of a qualifying element. *)
Lemma qualifies_edges (el : Element) :
  qualifies el ->
  top (rect el) == y (rect el) /\
  bottom (rect el) == y (rect el) + height (rect el).
Proof.
  intros H. apply qualifies_size in H. destruct H as [Hh _].
  unfold top, bottom. split.
  - apply Q.min_l. lra.
  - apply Q.max_r. lra.
Qed.

Lemma toSection_extent (pg : Page) (el : Element) :
  qualifies el ->
  y_end (toSection pg el) - y_start (toSection pg el) == height (rect el).
Proof.
  intros H. destruct (qualifies_edges el H) as [Ht Hb].
  unfold toSection; simpl. rewrite Ht, Hb. ring.
Qed.

End DetectorFacts.

(** ** The mega-container collapse *)

Module CollapseFacts.
Import Detector DetectorFacts.

(** Sum of the heights, from the right. *)
Definition sumHeights (l : list Element) : Q :=
  fold_right (fun el s => height (rect el) + s) 0 l.

Lemma fold_heights (l : list Element) (a : Q) :
  fold_left (fun sum el => sum + height (rect el)) l a == a + sumHeights l.
Proof.
  revert a. induction l as [|el l IH]; intros a; simpl.
  - ring.
  - rewrite IH. ring.
Qed.

Lemma totalHeight_sum (l : list Element) : totalHeight l == sumHeights l.
Proof. unfold totalHeight. rewrite fold_heights. ring. Qed.

Lemma sumHeights_app (l1 l2 : list Element) :
  sumHeights (l1 ++ l2) == sumHeights l1 + sumHeights l2.
Proof.
  induction l1 as [|el l1 IH]; simpl; [ring|]. rewrite IH. ring.
Qed.

Lemma sumHeights_nonneg (l : list Element) :
  Forall qualifies l -> 0 <= sumHeights l.
Proof.
  induction 1 as [|el l Hq _ IH]; simpl; [lra|].
  apply qualifies_size in Hq. lra.
Qed.

Lemma sumHeights_member (l : list Element) (el : Element) :
  Forall qualifies l -> In el l -> height (rect el) <= sumHeights l.
Proof.
  induction 1 as [|a l Hq Hl IH]; simpl; [contradiction|].
  pose proof (sumHeights_nonneg l Hl) as Hn.
  apply qualifies_size in Hq.
  intros [->|Hin]; [lra|]. specialize (IH Hin). lra.
Qed.





End CollapseFacts.

(** ** The slicing loop of [src/unnamed/part_000] *)

Module SlicerFacts.
Import Run Part000.

(** The clip of a section more than 50 pixels high is not skipped. *)
Lemma tall_clip_valid (s : Detector.Section_) :
  50 < Detector.y_end s - Detector.y_start s ->
  Clip.width (clipOf s) = 1280%Z /\
  (50 <= Clip.height (clipOf s))%Z /\
  invalid (clipOf s) = false.
Proof.
  intros H.
  assert (50 <= Clip.height (clipOf s))%Z as Hh.
  { simpl. apply Math_round_ge. change (inject_Z 50) with 50. lra. }
  split; [reflexivity|]. split; [exact Hh|].
  unfold invalid. apply orb_false_iff. split.
  - apply Z.leb_gt. lia.
  - reflexivity.
Qed.

Definition valid (s : Detector.Section_) : Prop := invalid (clipOf s) = false.

(** What the loop prints for sections that are all extracted. *)
Fixpoint extractingFrom (i : nat) (sections : list Detector.Section_) : list Event :=
  match sections with
  | [] => []
  | s :: rest => Extracting (i + 1) (clipOf s) :: extractingFrom (S i) rest
  end.

Lemma remove_absent (f : File) (l : list File) :
  ~ In f l -> remove File_eq_dec f l = l.
Proof. apply notin_remove. Qed.

Lemma sliceFrom_valid (w : World) (sections : list Detector.Section_) :
  Forall valid sections ->
  forall i st st',
    (forall j, In (section_png j) (files st) -> (j <= i)%nat) ->
    sliceFrom w i sections st = (Returned tt, st') ->
    files st' = rev (map section_png (seq (i + 1) (List.length sections))) ++ files st /\
    console st' = console st ++ extractingFrom i sections.
Proof.
  induction 1 as [|s rest Hs _ IH]; intros i st st' Hfresh Hrun; simpl in *.
  - inversion Hrun; subst. rewrite app_nil_r. auto.
  - unfold valid in Hs. rewrite Hs in Hrun.
    unfold bind, print, extractToFile, orThrow, bind in Hrun. simpl in Hrun.
    destruct (extract w (clipOf s)) as [msg|]; simpl in Hrun; [discriminate|].
    apply IH in Hrun.
    + destruct Hrun as [Hf Hc]. simpl in Hf, Hc. rewrite Hf, Hc.
      rewrite remove_absent.
      * split.
        -- replace (S i + 1)%nat with (S (i + 1)) by lia.
           rewrite <- app_assoc. reflexivity.
        -- rewrite <- app_assoc. reflexivity.
      * intros Hin. apply Hfresh in Hin. lia.
    + simpl. intros j [Hj|Hj].
      * inversion Hj. lia.
      * apply in_remove in Hj. destruct Hj as [Hj _]. apply Hfresh in Hj. lia.
Qed.

Lemma sliceFrom_no_skip (w : World) (sections : list Detector.Section_) :
  Forall valid sections ->
  forall i st j c,
    In (Skipping j c) (console (snd (sliceFrom w i sections st))) ->
    In (Skipping j c) (console st).
Proof.
  induction 1 as [|s rest Hs _ IH]; intros i st j c Hin; simpl in *.
  - exact Hin.
  - unfold valid in Hs. rewrite Hs in Hin.
    unfold bind, print, extractToFile, orThrow, bind in Hin. simpl in Hin.
    destruct (extract w (clipOf s)) as [msg|]; simpl in Hin.
    + apply in_app_or in Hin. destruct Hin as [Hin|[Hin|[]]]; [exact Hin|discriminate].
    + apply IH in Hin. simpl in Hin.
      apply in_app_or in Hin. destruct Hin as [Hin|[Hin|[]]]; [exact Hin|discriminate].
Qed.

Lemma persisted_remove_master (l : list File) :
  filter isSectionFile (remove File_eq_dec master_png l) = filter isSectionFile l.
Proof.
  induction l as [|f l IH]; [reflexivity|].
  change (remove File_eq_dec master_png (f :: l))
    with (if File_eq_dec master_png f
          then remove File_eq_dec master_png l
          else f :: remove File_eq_dec master_png l).
  destruct (File_eq_dec master_png f) as [<-|Hne].
  - simpl. exact IH.
  - cbn [filter]. now rewrite IH.
Qed.

Lemma persisted_section_files (l : list nat) :
  filter isSectionFile (map section_png l) = map section_png l.
Proof. induction l as [|n l IH]; simpl; [reflexivity|now rewrite IH]. Qed.

(** A run of the slicer over sections that are all valid: the count it
    returns is the number of sections, each section left its file, and no
    section was skipped. *)
Lemma sliceSections_valid (w : World) (sections : list Detector.Section_)
      (n : nat) (st : Store) :
  Forall valid sections ->
  sliceSections w sections emptyStore = (Returned n, st) ->
  n = List.length sections /\
  persisted st = rev (map section_png (seq 1 n)) /\
  console st = extractingFrom 0 sections.
Proof.
  intros Hvalid. unfold sliceSections.
  destruct sections as [|s rest] eqn:E.
  - simpl. unfold ret. intros H. inversion H; subst. auto.
  - rewrite <- E in *. replace (List.length sections =? 0)%nat with false
      by (subst sections; reflexivity).
    unfold bind at 1. unfold screenshot, bind, orThrow.
    destruct (capture w) as [msg|]; simpl; [discriminate|].
    destruct (sliceFrom w 0 sections _) as [[[]|msg] st2] eqn:Hloop; [|discriminate].
    apply (sliceFrom_valid w sections Hvalid) in Hloop.
    + destruct Hloop as [Hf Hc]. simpl in Hf, Hc.
      unfold unlinkMaster, bind, orThrow.
      destruct (unlink w) as [msg|]; simpl; [discriminate|].
      unfold ret. intros H. inversion H; subst n st. clear H.
      split; [reflexivity|]. unfold persisted; simpl.
      rewrite persisted_remove_master, Hf, filter_app, <- map_rev,
        persisted_section_files. simpl. rewrite app_nil_r.
      split; [reflexivity|exact Hc].
    + simpl. intros j [Hj|[]]. discriminate.
Qed.

End SlicerFacts.

(** ** Detected sections reach the slicer valid *)

Import DetectorFacts CollapseFacts SlicerFacts.

Lemma StronglySorted_map {A B : Type} (f : A -> B) (R : B -> B -> Prop) (l : list A) :
  StronglySorted (fun a b => R (f a) (f b)) l -> StronglySorted R (map f l).
Proof.
  induction 1 as [|a l Hs IH Ha]; simpl; constructor; [exact IH|].
  apply Forall_map. exact Ha.
Qed.

Lemma StronglySorted_weaken {A : Type} (R S : A -> A -> Prop) (l : list A) :
  (forall a b, R a b -> S a b) -> StronglySorted R l -> StronglySorted S l.
Proof.
  intros HRS. induction 1 as [|a l Hs IH Ha]; constructor; [exact IH|].
  eapply Forall_impl; [|exact Ha]. intros b. apply HRS.
Qed.

(** Every detected section is more than 50 pixels high. *)
Lemma detected_extent (pg : Page) (s : Detector.Section_) :
  In s (Detector.sections pg) -> 50 < Detector.y_end s - Detector.y_start s.
Proof.
  unfold Detector.sections. intros H. apply in_map_iff in H.
  destruct H as [el [<- Hel]].
  pose proof (finalElements_qualify pg) as Hq. rewrite Forall_forall in Hq.
  specialize (Hq el Hel).
  rewrite (toSection_extent pg el Hq). apply qualifies_size in Hq. tauto.
Qed.

Lemma detected_valid (pg : Page) : Forall valid (Detector.sections pg).
Proof.
  apply Forall_forall. intros s Hs. apply tall_clip_valid, (detected_extent pg s Hs).
Qed.

(** ** The clamp of [route.js] *)

(** The spec's clamping scenario. *)
Example route_clamp_scenario :
  Route.clipOf (1280, 2000)%Z (Route.mkSection 1200 1950 200 200) =
  Clip.mk 1200 1950 80 50.
Proof. reflexivity. Qed.

(** Left and top are never negative after the clamp; for a clip that
    starts at non-negative offsets the clamp also keeps the right and the
    bottom edge inside the raster. *)
Lemma route_clamp_nonnegative_origin (meta : Z * Z) (clip : Clip.t) :
  let clamped := Route.clampClip meta clip in
  (0 <= Clip.left clamped)%Z /\ (0 <= Clip.top clamped)%Z /\
  ((0 <= Clip.left clip)%Z -> (0 <= Clip.top clip)%Z ->
   (Clip.left clamped + Clip.width clamped <= fst meta)%Z /\
   (Clip.top clamped + Clip.height clamped <= snd meta)%Z).
Proof.
  destruct meta as [mw mh]. destruct clip as [l t w h].
  unfold Route.clampClip. cbn [Clip.left Clip.top Clip.width Clip.height fst snd].
  destruct (mw <? l + w)%Z eqn:E1; cbn [Clip.left Clip.top Clip.width Clip.height];
  destruct (mh <? t + h)%Z eqn:E2; cbn [Clip.left Clip.top Clip.width Clip.height];
  destruct (l <? 0)%Z eqn:E3; cbn [Clip.left Clip.top Clip.width Clip.height];
  destruct (t <? 0)%Z eqn:E4; cbn [Clip.left Clip.top Clip.width Clip.height];
  try apply Z.ltb_lt in E1; try apply Z.ltb_ge in E1;
  try apply Z.ltb_lt in E2; try apply Z.ltb_ge in E2;
  try apply Z.ltb_lt in E3; try apply Z.ltb_ge in E3;
  try apply Z.ltb_lt in E4; try apply Z.ltb_ge in E4;
  repeat split; intros; lia.
Qed.

(** ** The scroll loop *)

Lemma first_true (P : nat -> bool) (K : nat) :
  P K = true ->
  exists k, (k <= K)%nat /\ P k = true /\ forall j, (j < k)%nat -> P j = false.
Proof.
  induction K as [K IH] using lt_wf_ind. intros HK.
  destruct (existsb P (seq 0 K)) eqn:E.
  - apply existsb_exists in E. destruct E as [k' [Hin Hk']].
    apply in_seq in Hin. destruct (IH k') as [k [Hle [Hk Hmin]]]; [lia|exact Hk'|].
    exists k. repeat split; [lia|exact Hk|exact Hmin].
  - exists K. repeat split; [lia|exact HK|].
    intros j Hj. destruct (P j) eqn:Ej; [|reflexivity].
    assert (existsb P (seq 0 K) = true) as Hex.
    { apply existsb_exists. exists j. split; [apply in_seq; lia|exact Ej]. }
    congruence.
Qed.

Section ScrollFacts.
Variable PageState : Type.
Variable scrollHeight : PageState -> Z.
Variable scrollBy : Z -> PageState -> PageState.
Variable between : PageState -> PageState.
Variable p0 : PageState.

Let pageAt := Scroll.pageAt PageState scrollBy between p0.
Let fire := Scroll.fire PageState scrollHeight scrollBy between.
Let run := Scroll.fireUntilResolved PageState scrollHeight scrollBy between.

(** The state the [k]-th firing starts from, if the timer is still armed. *)
Definition stateAt (k : nat) : Scroll.LoopState PageState :=
  Scroll.mkLoop (200 * Z.of_nat k)%Z (pageAt k).

(** The test of line 31 at the [k]-th firing. *)
Definition stopsAt (k : nat) : bool :=
  (200 * (Z.of_nat k + 1) >=? scrollHeight (pageAt k))%Z.

Definition resolvedAt (k : nat) : Scroll.LoopState PageState :=
  Scroll.mkLoop (200 * (Z.of_nat k + 1))%Z (scrollBy Scroll.distance (pageAt k)).

Lemma fire_stateAt (k : nat) :
  fire (stateAt k) =
  if stopsAt k then Scroll.Resolved (resolvedAt k) else Scroll.Armed (stateAt (S k)).
Proof.
  unfold fire, Scroll.fire, stateAt, stopsAt, resolvedAt, Scroll.distance.
  cbn [Scroll.totalHeight Scroll.page].
  replace (200 * Z.of_nat k + 200)%Z with (200 * (Z.of_nat k + 1))%Z by lia.
  destruct (_ >=? _)%Z; [reflexivity|].
  f_equal. f_equal. lia.
Qed.

Lemma run_S (fuel : nat) (s : Scroll.LoopState PageState) :
  run (S fuel) s =
  match fire s with
  | Scroll.Resolved s' => Some (1%nat, s')
  | Scroll.Armed s' =>
      match run fuel s' with
      | Some (n, r) => Some (S n, r)
      | None => None
      end
  end.
Proof. reflexivity. Qed.

Lemma run_until (m : nat) :
  forall k fuel,
    (forall j, (k <= j < k + m)%nat -> stopsAt j = false) ->
    stopsAt (k + m) = true ->
    (m < fuel)%nat ->
    run fuel (stateAt k) = Some (S m, resolvedAt (k + m)).
Proof.
  induction m as [|m IH]; intros k fuel Harmed Hstop Hfuel;
    (destruct fuel as [|fuel]; [lia|]);
    rewrite run_S, fire_stateAt.
  - rewrite Nat.add_0_r in *. rewrite Hstop. reflexivity.
  - rewrite (Harmed k) by lia.
    rewrite (IH (S k) fuel).
    + replace (S k + m)%nat with (k + S m)%nat by lia. reflexivity.
    + intros j Hj. apply Harmed. lia.
    + replace (S k + m)%nat with (k + S m)%nat by lia. exact Hstop.
    + lia.
Qed.

Lemma run_short (fuel : nat) :
  forall k,
    (forall j, (k <= j < k + fuel)%nat -> stopsAt j = false) ->
    run fuel (stateAt k) = None.
Proof.
  induction fuel as [|fuel IH]; intros k Harmed; [reflexivity|].
  rewrite run_S, fire_stateAt.
  rewrite (Harmed k) by lia. rewrite IH; [reflexivity|].
  intros j Hj. apply Harmed. lia.
Qed.

(** C9.  The callback reads the scroll height of the page as it is at that
    firing, adds the fixed distance of 200 pixels, and resolves at the first
    firing at which the accumulated distance has reached the height just
    read.  If the heights the firings read are bounded, the loop resolves:
    there is a number [n] of firings after which the promise is resolved
    (any larger supply of firings gives the same result, any smaller none),
    the accumulated distance is then [200 * n], it covers the height read
    at the last firing, and at every earlier firing it was still below the
    height read then. *)
Theorem scroll_loop_terminates (bound : Z) :
  (forall k, (scrollHeight (pageAt k) <= bound)%Z) ->
  exists n final,
    (1 <= n)%nat /\
    (forall fuel, (n <= fuel)%nat ->
                  run fuel (Scroll.start PageState between p0) = Some (n, final)) /\
    (forall fuel, (fuel < n)%nat ->
                  run fuel (Scroll.start PageState between p0) = None) /\
    Scroll.totalHeight final = (Scroll.distance * Z.of_nat n)%Z /\
    (scrollHeight (pageAt (n - 1)) <= Scroll.totalHeight final)%Z /\
    (forall j, (j < n - 1)%nat ->
               (Scroll.distance * (Z.of_nat j + 1) < scrollHeight (pageAt j))%Z).
Proof.
  intros Hbound.
  assert (stopsAt (Z.to_nat bound) = true) as Hlast.
  { unfold stopsAt. apply Z.geb_le. specialize (Hbound (Z.to_nat bound)). lia. }
  destruct (first_true stopsAt _ Hlast) as [k [_ [Hk Hmin]]].
  exists (S k), (resolvedAt k).
  assert (Scroll.start PageState between p0 = stateAt 0) as Hstart by reflexivity.
  rewrite Hstart. unfold Scroll.distance.
  split; [lia|]. split; [|split; [|split; [|split]]].
  - intros fuel Hfuel. apply (run_until k 0 fuel); [intros j Hj; apply Hmin; lia|exact Hk|lia].
  - intros fuel Hfuel. apply run_short. intros j Hj. apply Hmin. lia.
  - cbn [resolvedAt Scroll.totalHeight]. lia.
  - cbn [resolvedAt Scroll.totalHeight].
    replace (S k - 1)%nat with k by lia.
    unfold stopsAt in Hk. apply Z.geb_le in Hk. lia.
  - intros j Hj. specialize (Hmin j ltac:(lia)).
    unfold stopsAt in Hmin. rewrite Z.geb_leb in Hmin.
    apply Z.leb_gt in Hmin. lia.
Qed.
End ScrollFacts.

(** Witness of C9: a page that keeps growing, up to 1500 pixels, while it
    is scrolled. *)
Lemma scroll_loop_terminates_witness :
  exists n final,
    (1 <= n)%nat /\
    (forall fuel, (n <= fuel)%nat ->
        Scroll.fireUntilResolved Z (fun h => h) (fun _ h => h) Examples.growingPage fuel
          (Scroll.start Z Examples.growingPage 100%Z) = Some (n, final)) /\
    (forall fuel, (fuel < n)%nat ->
        Scroll.fireUntilResolved Z (fun h => h) (fun _ h => h) Examples.growingPage fuel
          (Scroll.start Z Examples.growingPage 100%Z) = None) /\
    Scroll.totalHeight final = (Scroll.distance * Z.of_nat n)%Z /\
    (Scroll.pageAt Z (fun _ h => h) Examples.growingPage 100%Z (n - 1) <= Scroll.totalHeight final)%Z /\
    (forall j, (j < n - 1)%nat ->
        (Scroll.distance * (Z.of_nat j + 1)
         < Scroll.pageAt Z (fun _ h => h) Examples.growingPage 100%Z j)%Z).
Proof.
  apply (scroll_loop_terminates Z (fun h => h) (fun _ h => h) Examples.growingPage 100%Z 1500%Z).
  intros k. destruct k; simpl; unfold Examples.growingPage; lia.
Defined.

(** The height is read anew at every firing: the page above is 400 pixels
    high at the first firing, and the loop runs until the 1500 pixels it
    has grown to are covered. *)
Example scroll_follows_growth :
  Scroll.fireUntilResolved Z (fun h => h) (fun _ h => h) Examples.growingPage 20
    (Scroll.start Z Examples.growingPage 100%Z) = Some (8%nat, Scroll.mkLoop 1600%Z 1500%Z).
Proof. reflexivity. Qed.

(** * The claims on the detector and the slicer *)

(** C1.  Whenever the handler of [part_000] answers with a list of
    screenshot paths, the list is as long as the number of crops the run
    left on disk, the paths are numbered 1, 2, ... and name exactly the
    persisted crops, and no section was skipped in the run: the reported
    count counts persisted crops only. *)
Theorem reported_count_is_persisted_count
        (w : Run.World) (url : option string)
        (paths : list Run.ScreenshotPath) (st : Run.Store) :
  Part000.POST w url = (Run.mkResponse 200 (Run.screenshots paths), st) ->
  List.length paths = List.length (Run.persisted st) /\
  map Run.index paths = seq 1 (List.length paths) /\
  Permutation (Run.persisted st) (map Run.section_png (map Run.index paths)) /\
  (forall j c, ~ In (Run.Skipping j c) (Run.console st)).
Proof.
  unfold Part000.POST.
  destruct url as [[|a u]|]; try discriminate.
  set (url := String a u).
  unfold Run.bind at 1, Run.await at 1.
  destruct (Run.prepare w url) as [uniqueDir|msg]; [|discriminate].
  unfold Run.bind at 1.
  destruct (Part000.takeScreenshots w url Run.emptyStore) as [[n|msg] st1] eqn:Hrun;
    [|discriminate].
  unfold Run.ret. intros H. inversion H; subst paths st1. clear H.
  unfold Part000.takeScreenshots, Run.bind, Run.await in Hrun.
  destruct (Run.render w url) as [pg|msg]; [|discriminate].
  destruct (sliceSections_valid w _ n st (detected_valid pg) Hrun)
    as [Hn [Hfiles Hconsole]].
  assert (map Run.index (Part000.screenshotPaths uniqueDir n) = seq 1 n) as Hidx.
  { unfold Part000.screenshotPaths. rewrite map_map. simpl.
    rewrite <- seq_shift, map_ext with (g := S); [reflexivity|].
    intros i. lia. }
  assert (List.length (Part000.screenshotPaths uniqueDir n) = n) as Hlen.
  { unfold Part000.screenshotPaths. now rewrite length_map, length_seq. }
  rewrite Hidx, Hlen, Hfiles. repeat split.
  - now rewrite length_rev, length_map, length_seq.
  - symmetry. apply Permutation_rev.
  - intros j c Hin. rewrite Hconsole in Hin.
    clear - Hin. revert Hin. generalize 0%nat.
    induction (Detector.sections pg) as [|s l IH]; simpl; intros i H;
      [contradiction|].
    destruct H as [H|H]; [discriminate|eapply IH; exact H].
Qed.

(** Witness of C1: the page with three stacked sections. *)
Lemma reported_count_is_persisted_count_witness :
  List.length
    [Run.mkPath "example.com-2024-01-01T00-00-00.000Z" 1;
     Run.mkPath "example.com-2024-01-01T00-00-00.000Z" 2;
     Run.mkPath "example.com-2024-01-01T00-00-00.000Z" 3] =
  List.length
    (Run.persisted
       (snd (Part000.POST (Examples.worldOf Examples.stackPage (1280, 1000)%Z)
                          (Some "https://example.com"%string)))).
Proof.
  apply (reported_count_is_persisted_count
           (Examples.worldOf Examples.stackPage (1280, 1000)%Z)
           (Some "https://example.com"%string)).
  vm_compute. reflexivity.
Defined.

(** The loop of [part_000] counts a section it skips: this needs a section
    the detector never produces. *)
Example sliceSections_counts_a_skipped_section :
  Part000.sliceSections (Examples.worldOf Examples.emptyPage (1280, 800)%Z)
      [ {| Detector.y_start := 100; Detector.y_end := 1002 # 10 |} ]
      Run.emptyStore =
    (Run.Returned 1%nat,
     Run.mkStore [] [Run.Skipping 1 (Clip.mk 0 100 1280 0)]).
Proof. vm_compute. reflexivity. Qed.

(** C2, evaluated at a failing input.  On a page whose first section
    starts 100 pixels left of the viewport and is 1480 pixels wide, with a
    raster of 1280 by 800 pixels, the slicer of [route.js] hands the
    rectangle [left 0, width 1380] to the extraction: its right edge is
    outside the raster, the image library rejects it and the run fails. *)
Theorem route_clamp_exceeds_raster :
  map (Route.clipOf (1280, 800)%Z) (Route.sections Examples.bleedPage) =
    [Clip.mk 0 0 1380 600; Clip.mk 0 600 1280 200] /\
  (1280 < Clip.left (Clip.mk 0 0 1380 600) + Clip.width (Clip.mk 0 0 1380 600))%Z /\
  Route.takeScreenshots (Examples.worldOf Examples.bleedPage (1280, 800)%Z)
                        "https://example.com" Run.emptyStore =
    (Run.Thrown "extract_area: bad extract area",
     Run.mkStore [Run.master_png]
                 [Run.Extracting 1 (Clip.mk 0 0 1380 600)]).
Proof.
  split; [vm_compute; reflexivity|]. split; [reflexivity|].
  vm_compute. reflexivity.
Qed.

(** Counterexample to C3 as stated: the slicer of [part_000] rounds to the
    nearest integer.  A section from 300.6 to 600.4 gets top 301 and height
    300, where flooring gives 300 and 299. *)
Lemma clip_by_flooring_counterexample :
  map Part000.clipOf (Detector.sections Examples.fractionPage) =
    [Clip.mk 0 0 1280 301; Clip.mk 0 301 1280 300] /\
  map (fun s => Math_floor (Detector.y_start s))
      (Detector.sections Examples.fractionPage) = [0; 300]%Z /\
  map (fun s => Math_floor (Detector.y_end s - Detector.y_start s))
      (Detector.sections Examples.fractionPage) = [300; 299]%Z /\
  ~ (forall s, Clip.top (Part000.clipOf s) = Math_floor (Detector.y_start s)).
Proof.
  split; [vm_compute; reflexivity|]. split; [vm_compute; reflexivity|].
  split; [vm_compute; reflexivity|].
  intros H.
  specialize (H {| Detector.y_start := 3006 # 10; Detector.y_end := 6004 # 10 |}).
  vm_compute in H. discriminate.
Qed.

(** C3, amended.  The slicer of [route.js] floors the four coordinates of
    the section before it clamps: each clip field is the greatest integer
    not above the coordinate.  The slicer of [part_000] fixes left at 0 and
    width at 1280 and rounds the top and the extent [y_end - y_start] to the
    nearest integer (within half a pixel, ties upwards); it does not
    clamp. *)
Theorem clip_integer_bounds :
  (forall meta section,
      let clip := Route.initialClip section in
      Route.clipOf meta section = Route.clampClip meta clip /\
      (inject_Z (Clip.left clip) <= Route.x section /\
       Route.x section < inject_Z (Clip.left clip) + 1) /\
      (inject_Z (Clip.top clip) <= Route.y section /\
       Route.y section < inject_Z (Clip.top clip) + 1) /\
      (inject_Z (Clip.width clip) <= Route.width section /\
       Route.width section < inject_Z (Clip.width clip) + 1) /\
      (inject_Z (Clip.height clip) <= Route.height section /\
       Route.height section < inject_Z (Clip.height clip) + 1)) /\
  (forall s,
      let clip := Part000.clipOf s in
      let extent := Detector.y_end s - Detector.y_start s in
      Clip.left clip = 0%Z /\
      Clip.width clip = 1280%Z /\
      (Detector.y_start s - (1 # 2) < inject_Z (Clip.top clip) /\
       inject_Z (Clip.top clip) <= Detector.y_start s + (1 # 2)) /\
      (extent - (1 # 2) < inject_Z (Clip.height clip) /\
       inject_Z (Clip.height clip) <= extent + (1 # 2))).
Proof.
  split.
  - intros meta section clip. split; [reflexivity|].
    unfold clip, Route.initialClip. cbn [Clip.left Clip.top Clip.width Clip.height].
    repeat split; apply Math_floor_spec.
  - intros s clip extent. split; [reflexivity|]. split; [reflexivity|].
    unfold clip, extent, Part000.clipOf. cbn [Clip.top Clip.height].
    split; apply Math_round_spec.
Qed.



(** Counterexample to C5 as stated.  The pages have the shape
    [body > div > div > [A, B, C]] with [A], [B], [C] qualifying.  On the
    first, [A] is higher than 80% of the three heights and has no children:
    the detector returns [B, C].  On the second, [A] is laid out below [B]
    and [C]: the detector returns [B, C, A].  On the third, [A], [B], [C]
    qualify but the outer wrapper has [position: fixed]: the detector
    returns nothing. *)
Lemma wrapper_drilling_counterexample :
  (children (body Examples.tallPage) = [Examples.tallOuter] /\
   children Examples.tallOuter = [Examples.tallInner] /\
   children Examples.tallInner = [Examples.tallA; Examples.tallB; Examples.tallC] /\
   Forall qualifies [Examples.tallOuter; Examples.tallInner;
                     Examples.tallA; Examples.tallB; Examples.tallC] /\
   Detector.finalElements Examples.tallPage = [Examples.tallB; Examples.tallC] /\
   Detector.sections Examples.tallPage <>
     map (Detector.toSection Examples.tallPage)
         [Examples.tallA; Examples.tallB; Examples.tallC]) /\
  (children (body Examples.lowPage) = [Examples.lowOuter] /\
   children Examples.lowOuter = [Examples.lowInner] /\
   children Examples.lowInner = [Examples.lowA; Examples.lowB; Examples.lowC] /\
   Forall qualifies [Examples.lowOuter; Examples.lowInner;
                     Examples.lowA; Examples.lowB; Examples.lowC] /\
   Detector.finalElements Examples.lowPage =
     [Examples.lowB; Examples.lowC; Examples.lowA] /\
   Detector.sections Examples.lowPage <>
     map (Detector.toSection Examples.lowPage)
         [Examples.lowA; Examples.lowB; Examples.lowC]) /\
  (children (body Examples.pinnedPage) = [Examples.pinnedOuter] /\
   children Examples.pinnedOuter = [Examples.stackInner] /\
   children Examples.stackInner =
     [Examples.stackA; Examples.stackB; Examples.stackC] /\
   Forall qualifies [Examples.stackA; Examples.stackB; Examples.stackC] /\
   Detector.finalElements Examples.pinnedPage = [] /\
   Detector.sections Examples.pinnedPage = []).
Proof.
  split; [|split].
  - repeat split; try reflexivity.
    + repeat constructor.
    + vm_compute. discriminate.
  - repeat split; try reflexivity.
    + repeat constructor.
    + vm_compute. discriminate.
  - repeat split; try reflexivity. repeat constructor.
Qed.

(** C5, amended.  While exactly one child qualifies, the drill-down goes
    on in that child; otherwise it stops with the qualifying children.  For
    a page [body > div > div > [A, B, C]] in which both wrappers and [A],
    [B], [C] qualify, none of the three is higher than 80% of their summed
    heights, and their tops do not decrease in document order, the detector
    returns exactly [A, B, C] in document order. *)
Theorem wrapper_drilling :
  (forall container single,
      Detector.getSections container = [single] ->
      Detector.drillDown container = Detector.drillDown single) /\
  (forall container,
      List.length (Detector.getSections container) <> 1%nat ->
      Detector.drillDown container = Detector.getSections container) /\
  (forall pg outer inner A B C,
      children (body pg) = [outer] ->
      children outer = [inner] ->
      children inner = [A; B; C] ->
      Forall qualifies [outer; inner; A; B; C] ->
      (forall el, In el [A; B; C] ->
                  height (rect el) <= Detector.totalHeight [A; B; C] * (8 # 10)) ->
      top (rect A) <= top (rect B) ->
      top (rect B) <= top (rect C) ->
      Detector.drillDown (body pg) = [A; B; C] /\
      Detector.finalElements pg = [A; B; C] /\
      Detector.sections pg = map (Detector.toSection pg) [A; B; C]).
Proof.
  split; [exact drillDown_single|]. split; [exact drillDown_exit|].
  intros pg outer inner A B C Hbody Houter Hinner Hq Hmega HAB HBC.
  assert (forall c kids, children c = kids -> Forall qualifies kids ->
                         Detector.getSections c = kids) as Hget.
  { intros c kids <- Hk. unfold Detector.getSections.
    induction Hk as [|k l Hk _ IH]; simpl; [reflexivity|].
    unfold qualifies in Hk. now rewrite Hk, IH. }
  inversion Hq as [|? ? Hq1 Hq']; subst.
  inversion Hq' as [|? ? Hq2 Hq3]; subst.
  assert (Detector.drillDown (body pg) = [A; B; C]) as Hdrill.
  { rewrite (drillDown_single (body pg) outer)
      by (apply Hget; [exact Hbody|repeat constructor; exact Hq1]).
    rewrite (drillDown_single outer inner)
      by (apply Hget; [exact Houter|repeat constructor; exact Hq2]).
    rewrite drillDown_exit; rewrite (Hget inner [A; B; C] Hinner Hq3);
      [reflexivity|simpl; lia]. }
  assert (Detector.candidates pg = [A; B; C]) as Hcand.
  { unfold Detector.candidates. rewrite Hdrill. reflexivity. }
  assert (Detector.megaContainer [A; B; C] = None) as Hnone.
  { unfold Detector.megaContainer. simpl.
    rewrite !(proj2 (Qgt_bool_false_iff _ _)); [reflexivity| | |];
      apply Hmega; simpl; auto. }
  assert (Detector.finalElements pg = [A; B; C]) as Hfinal.
  { unfold Detector.finalElements, Detector.finalOf, Detector.collapse.
    rewrite Hcand, Hnone, (sanity_filter_id _ Hq3).
    apply sortBy_id. unfold keyLe.
    repeat constructor; try assumption. lra. }
  split; [exact Hdrill|]. split; [exact Hfinal|].
  unfold Detector.sections. now rewrite Hfinal.
Qed.

(** Witness of C5: three stacked sections under two wrappers. *)
Lemma wrapper_drilling_witness :
  Detector.drillDown (body Examples.stackPage) =
    [Examples.stackA; Examples.stackB; Examples.stackC] /\
  Detector.finalElements Examples.stackPage =
    [Examples.stackA; Examples.stackB; Examples.stackC] /\
  Detector.sections Examples.stackPage =
    map (Detector.toSection Examples.stackPage)
        [Examples.stackA; Examples.stackB; Examples.stackC].
Proof.
  apply (proj2 (proj2 wrapper_drilling)
           Examples.stackPage Examples.stackOuter Examples.stackInner).
  - reflexivity.
  - reflexivity.
  - reflexivity.
  - repeat constructor.
  - intros el [<-|[<-|[<-|[]]]]; vm_compute; discriminate.
  - vm_compute; discriminate.
  - vm_compute; discriminate.
Defined.

(** The elements of a subtree, in document order. *)
Fixpoint nodes (el : Element) : list Element :=
  match el with
  | mkElement _ _ _ _ ch => el :: flat_map nodes ch
  end.

Lemma nodes_self (el : Element) : In el (nodes el).
Proof. destruct el; simpl. now left. Qed.

Lemma nodes_child (el c d : Element) :
  In c (children el) -> In d (nodes c) -> In d (nodes el).
Proof.
  destruct el as [i n s r ch]; simpl. intros Hc Hd. right.
  apply in_flat_map. exists c. split; assumption.
Qed.

(** [querySelector] answers with an element of the tree that has the
    local name asked for. *)
Lemma querySelector_found (name : string) (root found : Element) :
  querySelector name root = Some found ->
  In found (nodes root) /\ localName found = name.
Proof.
  revert found.
  induction root as [root IH] using (well_founded_induction
                                       (Wf_nat.well_founded_ltof _ esize)).
  intros found. destruct root as [i n s r ch] eqn:E. simpl.
  destruct (String.eqb_spec n name) as [->|Hne].
  - intros H. inversion H; subst. split; [now left|reflexivity].
  - assert (forall c, In c ch -> (esize c < esize root)%nat) as Hsmall.
    { intros c Hc. apply Detector.esize_child. subst root. exact Hc. }
    rewrite E in Hsmall. clear E.
    assert (forall l, (forall c, In c l -> In c ch) ->
              (fix firstIn (l : list Element) : option Element :=
                 match l with
                 | [] => None
                 | c :: l' =>
                     match querySelector name c with
                     | Some r0 => Some r0
                     | None => firstIn l'
                     end
                 end) l = Some found ->
              exists c, In c ch /\ In found (nodes c) /\ localName found = name)
      as Hscan.
    { induction l as [|c l IHl]; intros Hsub; [discriminate|].
      destruct (querySelector name c) as [r0|] eqn:Q.
      - intros H. inversion H; subst r0. exists c.
        split; [apply Hsub; now left|].
        apply (IH c); [apply Hsmall, Hsub; now left|exact Q].
      - apply IHl. intros d Hd. apply Hsub. now right. }
    intros H. destruct (Hscan ch (fun c Hc => Hc) H) as [c [Hc [Hin Hname]]].
    split; [|exact Hname]. right. apply in_flat_map. exists c. split; assumption.
Qed.

(** The function of the source decides the visibility predicate. *)
Lemma isPotentialSection_Qualifying (el : Element) :
  Detector.isPotentialSection el = true <-> Qualifying el.
Proof.
  unfold Detector.isPotentialSection, Qualifying.
  destruct (String.eqb_spec (display (style el)) "none") as [E1|E1];
    [simpl; split; [discriminate|tauto]|].
  destruct (String.eqb_spec (visibility (style el)) "hidden") as [E2|E2];
    [simpl; split; [discriminate|tauto]|].
  destruct (String.eqb_spec (opacity (style el)) "0") as [E3|E3];
    [simpl; split; [discriminate|tauto]|].
  destruct (String.eqb_spec (position (style el)) "fixed") as [E4|E4];
    [simpl; split; [discriminate|tauto]|].
  simpl. rewrite andb_true_iff, !Qgt_bool_iff. tauto.
Qed.

Lemma getSections_among (container : Element) :
  QualifyingAmong (children container) (Detector.getSections container).
Proof.
  unfold Detector.getSections.
  induction (children container) as [|el l IH]; simpl; [constructor|].
  destruct (Detector.isPotentialSection el) eqn:E.
  - apply among_keep; [apply isPotentialSection_Qualifying, E|exact IH].
  - apply among_drop; [|exact IH].
    intros Hq. apply isPotentialSection_Qualifying in Hq. congruence.
Qed.

Lemma among_unique (l a b : list Element) :
  QualifyingAmong l a -> QualifyingAmong l b -> a = b.
Proof.
  intros Ha. revert b.
  induction Ha as [|el l picked Hq _ IH|el l picked Hn _ IH];
    intros b Hb; inversion Hb; subst; try reflexivity; try contradiction.
  - f_equal. apply IH. assumption.
  - apply IH. assumption.
Qed.

(** The loop of lines 58-62 ends where the relation says. *)
Lemma drillDown_drills (container : Element) :
  DrillsTo container (Detector.drillDown container).
Proof.
  induction container as [c IH] using (well_founded_induction
                                         (Wf_nat.well_founded_ltof _ esize)).
  pose proof (getSections_among c) as Hamong.
  destruct (Nat.eq_dec (List.length (Detector.getSections c)) 1) as [H1|H1].
  - destruct (Detector.getSections c) as [|a [|b l]] eqn:E; simpl in H1;
      try discriminate.
    rewrite (drillDown_single c a E).
    apply (drills_into c a); [exact Hamong|].
    apply IH. apply Detector.getSections_child. rewrite E. now left.
  - rewrite (drillDown_exit c H1). apply drills_end; assumption.
Qed.

Lemma drills_unique (container : Element) (a b : list Element) :
  DrillsTo container a -> DrillsTo container b -> a = b.
Proof.
  intros Ha. revert b.
  induction Ha as [c found Hamong Hlen|c single found Hamong _ IH]; intros b Hb.
  - inversion Hb as [c' found' Hamong' Hlen'|c' single' found' Hamong' Hd']; subst.
    + apply (among_unique _ _ _ Hamong Hamong').
    + pose proof (among_unique _ _ _ Hamong Hamong') as E. subst found.
      simpl in Hlen. congruence.
  - inversion Hb as [c' found' Hamong' Hlen'|c' single' found' Hamong' Hd']; subst.
    + pose proof (among_unique _ _ _ Hamong Hamong') as E. subst b.
      simpl in Hlen'. congruence.
    + pose proof (among_unique _ _ _ Hamong Hamong') as E.
      inversion E; subst single'. apply IH. exact Hd'.
Qed.

(** C6.  Let the page have a [main] element; the one the detector looks up
    is an element of the page with that name.  The drill-down from the body
    and the drill-down from [main] each end with one well-defined set: the
    qualifying children (not hidden, not transparent, not fixed, more than
    50 pixels high and 100 wide) of the container reached by moving into the
    single qualifying child as long as there is exactly one.  If the
    body-rooted set has at most two elements, the candidates are the
    [main]-rooted set when it is strictly larger and the body-rooted set
    otherwise (also on a tie), so their number is the larger of the two
    counts; with more than two body-rooted candidates the [main]-rooted set
    is not used. *)
Theorem landmark_fallback (pg : Page) (mainEl : Element) :
  querySelector "main" (body pg) = Some mainEl ->
  localName mainEl = "main"%string /\
  In mainEl (nodes (body pg)) /\
  exists bodySet mainSet,
    DrillsTo (body pg) bodySet /\
    (forall found, DrillsTo (body pg) found -> found = bodySet) /\
    DrillsTo mainEl mainSet /\
    (forall found, DrillsTo mainEl found -> found = mainSet) /\
    ((List.length bodySet <= 2)%nat ->
     ((List.length bodySet < List.length mainSet)%nat ->
      Detector.candidates pg = mainSet) /\
     ((List.length mainSet <= List.length bodySet)%nat ->
      Detector.candidates pg = bodySet) /\
     List.length (Detector.candidates pg) =
       Nat.max (List.length bodySet) (List.length mainSet)) /\
    ((2 < List.length bodySet)%nat -> Detector.candidates pg = bodySet).
Proof.
  intros Hmain.
  destruct (querySelector_found "main" (body pg) mainEl Hmain) as [Hin Hname].
  split; [exact Hname|]. split; [exact Hin|].
  exists (Detector.drillDown (body pg)), (Detector.drillDown mainEl).
  split; [apply drillDown_drills|].
  split; [intros found Hf; apply (drills_unique _ _ _ Hf (drillDown_drills _))|].
  split; [apply drillDown_drills|].
  split; [intros found Hf; apply (drills_unique _ _ _ Hf (drillDown_drills _))|].
  unfold Detector.candidates. rewrite Hmain. cbv zeta.
  split.
  - intros Hfew. apply Nat.leb_le in Hfew. rewrite Hfew.
    destruct (Nat.ltb_spec (List.length (Detector.drillDown (body pg)))
                           (List.length (Detector.drillDown mainEl)))
      as [Hlt|Hge].
    + repeat split; [lia|lia].
    + repeat split; [lia|lia].
  - intros Hmany. apply Nat.leb_gt in Hmany. rewrite Hmany. reflexivity.
Qed.

Lemma qualifying_block (id : nat) (x y w h : Q) (kids : list Element) :
  50 < h -> 100 < w -> Qualifying (Examples.block id x y w h kids).
Proof.
  intros Hh Hw. unfold Qualifying. simpl.
  repeat split; try discriminate; assumption.
Qed.

(** Witness of C6: header and [main] at body level (two candidates); in
    [main] a hidden banner is passed over, the single wrapper is entered,
    and its three sections, without the thin divider, become the
    candidates. *)
Lemma landmark_fallback_witness :
  DrillsTo Examples.deepMain
           [Examples.deepS1; Examples.deepS2; Examples.deepS3] /\
  Detector.candidates Examples.deepPage =
    [Examples.deepS1; Examples.deepS2; Examples.deepS3].
Proof.
  assert (DrillsTo Examples.deepMain
            [Examples.deepS1; Examples.deepS2; Examples.deepS3]) as Hdeep.
  { apply (drills_into _ Examples.deepWrapper).
    - apply among_drop; [intros [H _]; apply H; reflexivity|].
      apply among_keep; [apply qualifying_block; reflexivity|constructor].
    - apply drills_end; [|simpl; lia].
      apply among_keep; [apply qualifying_block; reflexivity|].
      apply among_drop;
        [intros [_ [_ [_ [_ [H _]]]]]; vm_compute in H; discriminate|].
      apply among_keep; [apply qualifying_block; reflexivity|].
      apply among_keep; [apply qualifying_block; reflexivity|constructor]. }
  assert (DrillsTo (body Examples.deepPage)
            [Examples.deepHeader; Examples.deepMain]) as Hbody.
  { apply drills_end; [|simpl; lia].
    apply among_keep; [apply qualifying_block; reflexivity|].
    apply among_keep; [|constructor].
    unfold Qualifying; simpl. repeat split; try discriminate; reflexivity. }
  split; [exact Hdeep|].
  destruct (landmark_fallback Examples.deepPage Examples.deepMain)
    as [_ [_ [bodySet [mainSet [_ [Hbu [_ [Hmu [Hfew _]]]]]]]]]; [reflexivity|].
  rewrite <- (Hbu _ Hbody), <- (Hmu _ Hdeep) in Hfew.
  apply Hfew; simpl; lia.
Defined.

(** C7.  If the browser is set up, the page renders and the detector
    returns no section, [takeScreenshots] returns 0 without touching the
    disk and the handler answers 200 with an empty list of screenshots. *)
Theorem zero_sections_is_success
        (w : Run.World) (url uniqueDir : string) (pg : Page) :
  url <> EmptyString ->
  Run.prepare w url = Run.Returned uniqueDir ->
  Run.render w url = Run.Returned pg ->
  Detector.sections pg = [] ->
  Part000.takeScreenshots w url Run.emptyStore = (Run.Returned 0%nat, Run.emptyStore) /\
  Part000.POST w (Some url) =
    (Run.mkResponse 200 (Run.screenshots []), Run.emptyStore).
Proof.
  intros Hurl Hprep Hrender Hnone.
  assert (Part000.takeScreenshots w url Run.emptyStore =
          (Run.Returned 0%nat, Run.emptyStore)) as Hrun.
  { unfold Part000.takeScreenshots, Run.bind, Run.await.
    rewrite Hrender, Hnone. reflexivity. }
  split; [exact Hrun|].
  unfold Part000.POST. destruct url as [|a u]; [congruence|].
  unfold Run.bind at 1, Run.await at 1. rewrite Hprep.
  unfold Run.bind at 1. rewrite Hrun. reflexivity.
Qed.

(** Witness of C7: a page without elements. *)
Lemma zero_sections_is_success_witness :
  Part000.POST (Examples.worldOf Examples.emptyPage (1280, 800)%Z)
               (Some "https://example.com"%string) =
    (Run.mkResponse 200 (Run.screenshots []), Run.emptyStore).
Proof.
  apply (zero_sections_is_success
           (Examples.worldOf Examples.emptyPage (1280, 800)%Z)
           "https://example.com" "example.com-2024-01-01T00-00-00.000Z"
           Examples.emptyPage).
  - discriminate.
  - reflexivity.
  - reflexivity.
  - reflexivity.
Defined.

(** Counterexample to C8 as stated: two columns side by side give two
    sections with the same top offset, so the sequence is not strictly
    ascending. *)
Lemma sections_strictly_ascending_counterexample :
  Detector.sections Examples.columnsPage =
    [ {| Detector.y_start := 0; Detector.y_end := 500 |};
      {| Detector.y_start := 0; Detector.y_end := 500 |} ] /\
  ~ StronglySorted (fun a b => Detector.y_start a < Detector.y_start b)
      (Detector.sections Examples.columnsPage).
Proof.
  split; [vm_compute; reflexivity|].
  intros H. inversion H as [|a l _ Hall]; subst.
  inversion Hall as [|b l' Hlt _]; subst.
  vm_compute in Hlt. discriminate.
Qed.

(** C8, amended.  The returned sections are in ascending order of their
    top offset [rect.top + scrollY], equal offsets allowed; every element
    they come from is higher than 50 pixels, and so is every section. *)
Theorem sections_ascending (pg : Page) :
  StronglySorted (fun a b => Detector.y_start a <= Detector.y_start b)
    (Detector.sections pg) /\
  Forall (fun el => 50 < height (rect el)) (Detector.finalElements pg) /\
  Forall (fun s => 50 < Detector.y_end s - Detector.y_start s) (Detector.sections pg).
Proof.
  split; [|split].
  - unfold Detector.sections. apply StronglySorted_map.
    unfold Detector.finalElements, Detector.finalOf.
    eapply StronglySorted_weaken; [|apply sortBy_sorted].
    intros a b Hab. unfold keyLe in Hab. simpl. lra.
  - eapply Forall_impl; [|apply finalElements_qualify].
    intros el Hq. apply qualifies_size in Hq. tauto.
  - apply Forall_forall. intros s Hs. apply (detected_extent pg s Hs).
Qed.

(** C10.  A section that the detector returns spans more than 50 pixels;
    its clip has width 1280 and height at least 50, so the test of line 132
    is false for it.  The loop over the detected sections prints no
    "Skipping" line, and when the slicer returns, it has printed one
    "Extracting" line per detected section. *)
Theorem skip_branch_unreachable (pg : Page) (s : Detector.Section_) :
  In s (Detector.sections pg) ->
  50 < Detector.y_end s - Detector.y_start s /\
  Clip.width (Part000.clipOf s) = 1280%Z /\
  (50 <= Clip.height (Part000.clipOf s))%Z /\
  Part000.invalid (Part000.clipOf s) = false /\
  (forall w i st j c,
      In (Run.Skipping j c)
         (Run.console (snd (Part000.sliceFrom w i (Detector.sections pg) st))) ->
      In (Run.Skipping j c) (Run.console st)) /\
  (forall w n st,
      Part000.sliceSections w (Detector.sections pg) Run.emptyStore
        = (Run.Returned n, st) ->
      Run.console st = extractingFrom 0 (Detector.sections pg)).
Proof.
  intros Hs. pose proof (detected_extent pg s Hs) as Hext.
  destruct (tall_clip_valid s Hext) as [Hw [Hh Hv]].
  repeat split; try assumption.
  - intros w i st j c. apply sliceFrom_no_skip, detected_valid.
  - intros w n st Hrun.
    apply (sliceSections_valid w _ n st (detected_valid pg) Hrun).
Qed.

(** Witness of C10: the middle one of three stacked sections. *)
Lemma skip_branch_unreachable_witness :
  Part000.invalid
    (Part000.clipOf {| Detector.y_start := 300; Detector.y_end := 600 |}) = false.
Proof.
  apply (skip_branch_unreachable Examples.stackPage
           {| Detector.y_start := 300; Detector.y_end := 600 |}).
  vm_compute. right. left. reflexivity.
Defined.

(** * Further properties

    Properties of the code beyond the claims: the rest of the two
    [takeScreenshots], the handlers and the page component. *)

(** ** The detector of [part_000] *)

Lemma nodes_trans (root mid el : Element) :
  In mid (nodes root) -> In el (nodes mid) -> In el (nodes root).
Proof.
  induction root as [root IH] using (well_founded_induction
                                       (Wf_nat.well_founded_ltof _ esize)).
  intros Hmid Hel. destruct root as [i n s r ch] eqn:E.
  simpl in Hmid. destruct Hmid as [<-|Hmid]; [exact Hel|].
  apply in_flat_map in Hmid. destruct Hmid as [c [Hc Hmid]].
  simpl. right. apply in_flat_map. exists c. split; [exact Hc|].
  apply IH; [|exact Hmid|exact Hel].
  apply Detector.esize_child. exact Hc.
Qed.

(** The drill-down ends in a container of the subtree it started from. *)
Lemma drillDown_container (c : Element) :
  exists container,
    In container (nodes c) /\
    Detector.drillDown c = Detector.getSections container /\
    List.length (Detector.getSections container) <> 1%nat.
Proof.
  induction c as [c IH] using (well_founded_induction
                                 (Wf_nat.well_founded_ltof _ esize)).
  destruct (Nat.eq_dec (List.length (Detector.getSections c)) 1) as [H1|H1].
  - destruct (Detector.getSections c) as [|a [|b l]] eqn:E; simpl in H1;
      try discriminate.
    assert (In a (children c)) as Ha.
    { assert (In a (Detector.getSections c)) as Hin by (rewrite E; now left).
      unfold Detector.getSections in Hin. apply filter_In in Hin. apply Hin. }
    destruct (IH a) as [k [Hk [Hd Hlen]]]; [apply Detector.esize_child, Ha|].
    exists k. split; [|split].
    + apply (nodes_child c a k Ha Hk).
    + rewrite (drillDown_single c a E). exact Hd.
    + exact Hlen.
  - exists c. split; [apply nodes_self|]. split; [apply drillDown_exit|]; exact H1.
Qed.

(** X1.  Whatever the page, the candidates that leave the drill-down and the
    landmark fallback are the qualifying children of one container of the
    page, and they are never exactly one. *)
Theorem candidates_never_single (pg : Page) :
  List.length (Detector.candidates pg) <> 1%nat /\
  exists container,
    In container (nodes (body pg)) /\
    Detector.candidates pg = Detector.getSections container.
Proof.
  assert (forall c, In c (nodes (body pg)) ->
            List.length (Detector.drillDown c) <> 1%nat /\
            exists container,
              In container (nodes (body pg)) /\
              Detector.drillDown c = Detector.getSections container) as Hdrill.
  { intros c Hc. destruct (drillDown_container c) as [k [Hk [Hd Hlen]]].
    split; [now rewrite Hd|].
    exists k. split; [apply (nodes_trans (body pg) c k Hc Hk)|exact Hd]. }
  unfold Detector.candidates.
  destruct (_ <=? 2)%nat; [|apply Hdrill, nodes_self].
  destruct (querySelector "main" (body pg)) as [mainEl|] eqn:Q;
    [|apply Hdrill, nodes_self].
  apply querySelector_found in Q. destruct Q as [Hin _].
  destruct (_ <? _)%nat; [apply Hdrill, Hin|apply Hdrill, nodes_self].
Qed.

(** X2.  No element the detector returns is hidden, transparent or fixed,
    and each is more than 50 pixels high and more than 100 pixels wide. *)
Theorem returned_elements_are_visible (pg : Page) (el : Element) :
  In el (Detector.finalElements pg) ->
  display (style el) <> "none"%string /\
  visibility (style el) <> "hidden"%string /\
  opacity (style el) <> "0"%string /\
  position (style el) <> "fixed"%string /\
  50 < height (rect el) /\
  100 < width (rect el).
Proof.
  intros Hin. pose proof (finalElements_qualify pg) as Hq.
  rewrite Forall_forall in Hq. specialize (Hq el Hin).
  destruct (qualifies_size el Hq) as [Hh Hw].
  unfold qualifies, Detector.isPotentialSection in Hq.
  destruct (String.eqb_spec (display (style el)) "none") as [E1|E1];
    [discriminate|].
  destruct (String.eqb_spec (visibility (style el)) "hidden") as [E2|E2];
    [discriminate|].
  destruct (String.eqb_spec (opacity (style el)) "0") as [E3|E3];
    [discriminate|].
  destruct (String.eqb_spec (position (style el)) "fixed") as [E4|E4];
    [discriminate|].
  repeat split; assumption.
Qed.

Lemma returned_elements_are_visible_witness :
  position (style Examples.megaX) <> "fixed"%string.
Proof.
  apply (returned_elements_are_visible Examples.megaPage Examples.megaX).
  vm_compute. left. reflexivity.
Defined.

(** X3.  The sanity filter of line 95 never removes an element: the final
    list is a rearrangement of the list after the collapse, and there are as
    many sections as elements after the collapse. *)
Theorem sanity_filter_drops_nothing (pg : Page) :
  filter (fun el => Qgt_bool (height (rect el)) 50)
         (Detector.collapse (Detector.candidates pg)) =
    Detector.collapse (Detector.candidates pg) /\
  Permutation (Detector.finalElements pg)
              (Detector.collapse (Detector.candidates pg)) /\
  List.length (Detector.sections pg) =
    List.length (Detector.collapse (Detector.candidates pg)).
Proof.
  pose proof (candidates_qualify pg) as Hq.
  split; [apply sanity_filter_id, collapse_qualify, Hq|].
  assert (Permutation (Detector.finalElements pg)
                      (Detector.collapse (Detector.candidates pg))) as Hp
    by (apply finalOf_perm, Hq).
  split; [exact Hp|].
  unfold Detector.sections. rewrite length_map. apply Permutation_length, Hp.
Qed.

Lemma find_first {A : Type} (p : A -> bool) (l : list A) (m : A) :
  find p l = Some m ->
  exists before after,
    l = before ++ m :: after /\ p m = true /\
    forall a, In a before -> p a = false.
Proof.
  induction l as [|a l IH]; simpl; [discriminate|].
  destruct (p a) eqn:E.
  - intros H. inversion H; subst. exists [], l. repeat split; [exact E|].
    intros b [].
  - intros H. destruct (IH H) as [before [after [-> [Hm Hb]]]].
    exists (a :: before), after. repeat split; [exact Hm|].
    intros b [<-|Hin]; [exact E|apply Hb, Hin].
Qed.

(** X4.  When the detector finds a mega-container among the candidates of a
    page, it is the only candidate above 80% of the summed heights: every
    other candidate is below 20% of the sum. *)
Theorem mega_container_is_unique (pg : Page) (m : Element) :
  Detector.megaContainer (Detector.candidates pg) = Some m ->
  exists before after,
    Detector.candidates pg = before ++ m :: after /\
    Detector.totalHeight (Detector.candidates pg) * (8 # 10) < height (rect m) /\
    forall el, In el (before ++ after) ->
               height (rect el) < Detector.totalHeight (Detector.candidates pg) * (2 # 10).
Proof.
  intros Hmega. pose proof (candidates_qualify pg) as Hq.
  unfold Detector.megaContainer in Hmega.
  destruct (find_first _ _ _ Hmega) as [before [after [Hsplit [Hm _]]]].
  exists before, after. rewrite Hsplit in *.
  apply Qgt_bool_iff in Hm.
  split; [reflexivity|]. split; [exact Hm|].
  intros el Hin.
  assert (Forall qualifies (before ++ after)) as Hq'.
  { apply Forall_app in Hq. destruct Hq as [Hb Ha].
    inversion Ha; subst. apply Forall_app; auto. }
  pose proof (sumHeights_member _ _ Hq' Hin) as Hel.
  rewrite sumHeights_app in Hel.
  rewrite totalHeight_sum, sumHeights_app in *. simpl in *. lra.
Qed.

Lemma mega_container_is_unique_witness :
  exists before after,
    Detector.candidates Examples.megaPage = before ++ Examples.megaM :: after /\
    Detector.totalHeight (Detector.candidates Examples.megaPage) * (8 # 10)
      < height (rect Examples.megaM) /\
    forall el, In el (before ++ after) ->
               height (rect el)
               < Detector.totalHeight (Detector.candidates Examples.megaPage) * (2 # 10).
Proof.
  apply (mega_container_is_unique Examples.megaPage Examples.megaM).
  vm_compute. reflexivity.
Defined.

(** X5.  On a page in which no element has a qualifying child, the detector
    returns no section, with or without a [main] element. *)
Theorem nothing_qualifies_no_sections (pg : Page) :
  (forall container el,
      In container (nodes (body pg)) -> In el (children container) ->
      Detector.isPotentialSection el = false) ->
  Detector.candidates pg = [] /\
  Detector.finalElements pg = [] /\
  Detector.sections pg = [].
Proof.
  intros Hnone.
  assert (forall c, In c (nodes (body pg)) -> Detector.drillDown c = []) as Hdrill.
  { intros c Hc.
    assert (Detector.getSections c = []) as Hget.
    { unfold Detector.getSections.
      assert (forall l, (forall el, In el l -> In el (children c)) ->
                        filter Detector.isPotentialSection l = []) as Hf.
      { induction l as [|a l IHl]; intros Hsub; [reflexivity|]. simpl.
        rewrite (Hnone c a Hc) by (apply Hsub; now left).
        apply IHl. intros el Hel. apply Hsub. now right. }
      apply Hf. auto. }
    rewrite drillDown_exit; rewrite Hget; [reflexivity|simpl; lia]. }
  assert (Detector.candidates pg = []) as Hcand.
  { unfold Detector.candidates. rewrite (Hdrill (body pg) (nodes_self _)). simpl.
    destruct (querySelector "main" (body pg)) as [mainEl|] eqn:Q; [|reflexivity].
    apply querySelector_found in Q. destruct Q as [Hin _].
    rewrite (Hdrill mainEl Hin). reflexivity. }
  split; [exact Hcand|].
  assert (Detector.finalElements pg = []) as Hfinal.
  { unfold Detector.finalElements. rewrite Hcand. reflexivity. }
  split; [exact Hfinal|]. unfold Detector.sections. now rewrite Hfinal.
Qed.

Lemma nothing_qualifies_no_sections_witness :
  Detector.sections MoreExamples.tinyPage = [].
Proof.
  apply (nothing_qualifies_no_sections MoreExamples.tinyPage).
  intros container el Hc Hel. simpl in Hc.
  destruct Hc as [<-|[<-|[<-|[<-|[]]]]]; simpl in Hel;
    repeat (destruct Hel as [<-|Hel]; [reflexivity|]); contradiction.
Defined.

(** * Further properties of the scroll loop *)

Section ScrollBounds.
Variable PageState : Type.
Variable scrollHeight : PageState -> Z.
Variable scrollBy : Z -> PageState -> PageState.
Variable between : PageState -> PageState.
Variable p0 : PageState.

Let pageAt := Scroll.pageAt PageState scrollBy between p0.
Let run := Scroll.fireUntilResolved PageState scrollHeight scrollBy between.
Let stops := stopsAt PageState scrollHeight scrollBy between p0.

(** X6.  On a page whose scroll height stays at [h > 0], the loop resolves,
    and the distance scrolled overshoots the height by less than one step
    of 200 pixels. *)
Theorem scroll_static_page_overshoot (h : Z) :
  (0 < h)%Z ->
  (forall k, scrollHeight (pageAt k) = h) ->
  exists n final,
    (forall fuel, (n <= fuel)%nat ->
                  run fuel (Scroll.start PageState between p0) = Some (n, final)) /\
    Scroll.totalHeight final = (200 * Z.of_nat n)%Z /\
    (h <= Scroll.totalHeight final < h + 200)%Z.
Proof.
  intros Hpos Hstatic.
  assert (stops (Z.to_nat h) = true) as Hlast.
  { unfold stops, stopsAt. fold pageAt. rewrite Hstatic. apply Z.geb_le. lia. }
  destruct (first_true stops _ Hlast) as [k [_ [Hk Hmin]]].
  exists (S k), (resolvedAt PageState scrollBy between p0 k).
  split; [|split].
  - intros fuel Hfuel.
    apply (run_until PageState scrollHeight scrollBy between p0 k 0 fuel);
      [intros j Hj; apply Hmin; lia|exact Hk|lia].
  - unfold resolvedAt. cbn [Scroll.totalHeight]. lia.
  - unfold resolvedAt. cbn [Scroll.totalHeight].
    unfold stops, stopsAt in Hk. fold pageAt in Hk. rewrite Hstatic in Hk.
    apply Z.geb_le in Hk. split; [lia|].
    destruct k as [|k]; [lia|].
    specialize (Hmin k ltac:(lia)).
    unfold stops, stopsAt in Hmin. fold pageAt in Hmin. rewrite Hstatic in Hmin.
    rewrite Z.geb_leb in Hmin. apply Z.leb_gt in Hmin. lia.
Qed.

(** X7.  The loop has no bound of its own: on a page that at every firing is
    higher than the distance scrolled so far, the promise never resolves. *)
Theorem scroll_never_resolves_on_growing_page :
  (forall k, (200 * (Z.of_nat k + 1) < scrollHeight (pageAt k))%Z) ->
  forall fuel, run fuel (Scroll.start PageState between p0) = None.
Proof.
  intros Hgrow fuel.
  apply (run_short PageState scrollHeight scrollBy between p0 fuel 0).
  intros j _. unfold stopsAt. fold pageAt.
  rewrite Z.geb_leb. apply Z.leb_gt. apply Hgrow.
Qed.
End ScrollBounds.

Lemma static_pageAt (h : Z) (k : nat) :
  Scroll.pageAt Z (fun _ p => p) (fun p => p) h k = h.
Proof. induction k as [|k IH]; simpl; [reflexivity|exact IH]. Qed.

Lemma scroll_static_page_overshoot_witness :
  exists n final,
    (forall fuel, (n <= fuel)%nat ->
        Scroll.fireUntilResolved Z (fun p => p) (fun _ p => p) (fun p => p) fuel
          (Scroll.start Z (fun p => p) 1000%Z) = Some (n, final)) /\
    Scroll.totalHeight final = (200 * Z.of_nat n)%Z /\
    (1000 <= Scroll.totalHeight final < 1000 + 200)%Z.
Proof.
  apply (scroll_static_page_overshoot Z (fun p => p) (fun _ p => p) (fun p => p)
           1000%Z 1000%Z).
  - lia.
  - intros k. apply static_pageAt.
Defined.

Lemma endless_pageAt (k : nat) :
  Scroll.pageAt Z (fun _ p => p) (fun p => (p + 300)%Z) 0%Z k
  = (300 * (Z.of_nat k + 1))%Z.
Proof.
  induction k as [|k IH]; [reflexivity|].
  cbn [Scroll.pageAt]. rewrite IH. lia.
Qed.

Lemma scroll_never_resolves_on_growing_page_witness :
  Scroll.fireUntilResolved Z (fun p => p) (fun _ p => p) (fun p => (p + 300)%Z) 1000
    (Scroll.start Z (fun p => (p + 300)%Z) 0%Z) = None.
Proof.
  apply (scroll_never_resolves_on_growing_page Z (fun p => p) (fun _ p => p)
           (fun p => (p + 300)%Z) 0%Z).
  intros k. rewrite endless_pageAt. lia.
Defined.

(** * Further properties of the slicer and the handler of [part_000] *)

Module SliceAccounts.
Import Run Part000.

(** The indices, counted from 1, of the sections that are not skipped. *)
Fixpoint keptFrom (i : nat) (sections : list Detector.Section_) : list nat :=
  match sections with
  | [] => []
  | s :: rest =>
      if invalid (clipOf s) then keptFrom (S i) rest
      else (i + 1)%nat :: keptFrom (S i) rest
  end.

Lemma keptFrom_range (sections : list Detector.Section_) :
  forall i k, In k (keptFrom i sections) ->
              (i < k <= i + List.length sections)%nat.
Proof.
  induction sections as [|s rest IH]; intros i k; simpl; [contradiction|].
  destruct (invalid (clipOf s)).
  - intros H. apply IH in H. lia.
  - intros [<-|H]; [lia|]. apply IH in H. lia.
Qed.

Lemma keptFrom_length (sections : list Detector.Section_) (i : nat) :
  (List.length (keptFrom i sections)
   + List.length (filter (fun s => invalid (clipOf s)) sections)
   = List.length sections)%nat.
Proof.
  revert i. induction sections as [|s rest IH]; intros i; simpl; [reflexivity|].
  destruct (invalid (clipOf s)); simpl; rewrite <- (IH (S i)); lia.
Qed.

Lemma sliceFrom_files (w : World) (sections : list Detector.Section_) :
  forall i st st',
    (forall j, In (section_png j) (files st) -> (j <= i)%nat) ->
    sliceFrom w i sections st = (Returned tt, st') ->
    files st' = rev (map section_png (keptFrom i sections)) ++ files st.
Proof.
  induction sections as [|s rest IH]; intros i st st' Hfresh Hrun; simpl in *.
  - inversion Hrun; subst. reflexivity.
  - destruct (invalid (clipOf s)).
    + unfold bind, print in Hrun. simpl in Hrun.
      apply IH in Hrun; [exact Hrun|].
      simpl. intros j Hj. apply Hfresh in Hj. lia.
    + unfold bind, print, extractToFile, orThrow, bind in Hrun. simpl in Hrun.
      destruct (extract w (clipOf s)) as [msg|]; simpl in Hrun; [discriminate|].
      apply IH in Hrun.
      * rewrite Hrun. simpl. rewrite remove_absent.
        -- rewrite <- app_assoc. reflexivity.
        -- intros Hin. apply Hfresh in Hin. lia.
      * simpl. intros j [Hj|Hj].
        -- inversion Hj. lia.
        -- apply in_remove in Hj. destruct Hj as [Hj _]. apply Hfresh in Hj. lia.
Qed.

(** X9.  When the slicer of [part_000] returns, whatever the sections: the
    count is the number of sections it was given; the directory holds
    exactly the files [section-k.png] of the sections that were not skipped,
    [k] being the position of the section, and no master file; crops and
    skipped sections add up to the count; every file number lies between 1
    and the count. *)
Theorem slicer_accounts (w : World) (sections : list Detector.Section_)
        (n : nat) (st : Store) :
  sliceSections w sections emptyStore = (Returned n, st) ->
  n = List.length sections /\
  files st = rev (map section_png (keptFrom 0 sections)) /\
  ~ In master_png (files st) /\
  (List.length (persisted st)
   + List.length (filter (fun s => invalid (clipOf s)) sections) = n)%nat /\
  (forall k, In (section_png k) (files st) -> (1 <= k <= n)%nat).
Proof.
  unfold sliceSections.
  destruct sections as [|s rest] eqn:E.
  - simpl. unfold ret. intros H. inversion H; subst.
    repeat split; simpl; auto; contradiction.
  - rewrite <- E in *. replace (List.length sections =? 0)%nat with false
      by (subst sections; reflexivity).
    unfold bind at 1. unfold screenshot, bind, orThrow.
    destruct (capture w) as [msg|]; simpl; [discriminate|].
    destruct (sliceFrom w 0 sections _) as [[[]|msg] st2] eqn:Hloop; [|discriminate].
    apply (sliceFrom_files w sections) in Hloop;
      [|simpl; intros j [Hj|[]]; discriminate].
    simpl in Hloop.
    unfold unlinkMaster, bind, orThrow.
    destruct (unlink w) as [msg|]; simpl; [discriminate|].
    unfold ret. intros H. inversion H; subst n st. clear H. cbn [files].
    assert (remove File_eq_dec master_png (files st2)
            = rev (map section_png (keptFrom 0 sections))) as Hfiles.
    { rewrite Hloop, remove_app. simpl.
      destruct (File_eq_dec master_png master_png) as [_|Hne]; [|congruence].
      rewrite app_nil_r. apply notin_remove.
      rewrite <- in_rev, in_map_iff. intros [k [Hk _]]. discriminate. }
    rewrite Hfiles.
    split; [reflexivity|]. split; [reflexivity|]. split; [|split].
    + rewrite <- in_rev, in_map_iff. intros [k [Hk _]]. discriminate.
    + unfold persisted. cbn [files]. rewrite <- map_rev, persisted_section_files.
      rewrite length_map, length_rev. apply keptFrom_length.
    + intros k. rewrite <- in_rev, in_map_iff. intros [k' [Hk' Hin]].
      inversion Hk'; subst k'. apply keptFrom_range in Hin. lia.
Qed.

Lemma slicer_accounts_witness :
  files (snd (sliceSections (Examples.worldOf Examples.emptyPage (1280, 800)%Z)
                            MoreExamples.withSliver emptyStore))
  = rev (map section_png (keptFrom 0 MoreExamples.withSliver)).
Proof.
  apply (slicer_accounts (Examples.worldOf Examples.emptyPage (1280, 800)%Z)
                         MoreExamples.withSliver 3).
  vm_compute. reflexivity.
Defined.
End SliceAccounts.

Module FailureFacts.
Import Run Part000.

Lemma writeFile_keeps (f g : File) (st : Store) :
  f <> g -> In g (files st) -> In g (files (snd (writeFile f st))).
Proof.
  intros Hne Hin. simpl. right. apply in_in_remove; [congruence|exact Hin].
Qed.

(** Whatever happens in the loop, the master file stays where it is. *)
Lemma sliceFrom_keeps_master (w : World) (sections : list Detector.Section_) :
  forall i st,
    In master_png (files st) ->
    In master_png (files (snd (sliceFrom w i sections st))).
Proof.
  induction sections as [|s rest IH]; intros i st Hin; simpl; [exact Hin|].
  destruct (invalid (clipOf s)).
  - unfold bind, print. simpl. apply IH. exact Hin.
  - unfold bind, print, extractToFile, orThrow, bind. simpl.
    destruct (extract w (clipOf s)) as [msg|]; simpl; [exact Hin|].
    apply IH. simpl. right. apply in_in_remove; [discriminate|exact Hin].
Qed.

(** X10.  The master screenshot is removed only on the way to a normal
    return: if the raster was captured and slicing then throws (an
    extraction or the removal itself fails), the master file is still in the
    directory. *)
Theorem failed_slicing_leaves_master (w : World)
        (sections : list Detector.Section_) (message : string) (st : Store) :
  capture w = None ->
  sliceSections w sections emptyStore = (Thrown message, st) ->
  In master_png (files st).
Proof.
  intros Hcap. unfold sliceSections.
  destruct (List.length sections =? 0)%nat; [discriminate|].
  unfold bind at 1. unfold screenshot, bind, orThrow. rewrite Hcap. simpl.
  pose proof (sliceFrom_keeps_master w sections 0
                {| files := [master_png]; console := [] |}) as Hkeep.
  destruct (sliceFrom w 0 sections _) as [[[]|msg] st2] eqn:Hloop.
  - unfold unlinkMaster, bind, orThrow.
    destruct (unlink w) as [msg|]; simpl; [|discriminate].
    intros H. inversion H; subst. apply Hkeep. now left.
  - intros H. inversion H; subst. apply Hkeep. now left.
Qed.

Lemma failed_slicing_leaves_master_witness :
  In master_png
     (files (snd (sliceSections
                    (Examples.worldOf Examples.stackPage (1280, 500)%Z)
                    (Detector.sections Examples.stackPage) emptyStore))).
Proof.
  apply (failed_slicing_leaves_master
           (Examples.worldOf Examples.stackPage (1280, 500)%Z)
           (Detector.sections Examples.stackPage)
           "extract_area: bad extract area").
  - reflexivity.
  - vm_compute. reflexivity.
Defined.

(** X12.  If the navigation throws, the handler answers 500, forwards the
    message of the exception after the fixed prefix, and has written no
    file. *)
Theorem navigation_failure_is_500 (w : World) (url uniqueDir message : string) :
  url <> EmptyString ->
  prepare w url = Returned uniqueDir ->
  render w url = Thrown message ->
  POST w (Some url) =
    (mkResponse 500 (error ("Failed to analyze the URL. " ++ message)), emptyStore).
Proof.
  intros Hurl Hprep Hrender. unfold POST.
  destruct url as [|a u]; [congruence|].
  unfold takeScreenshots, bind, await. rewrite Hprep, Hrender. reflexivity.
Qed.

Lemma navigation_failure_is_500_witness :
  POST MoreExamples.offlineWorld (Some "https://nowhere.invalid"%string) =
    (mkResponse 500
       (error "Failed to analyze the URL. net::ERR_NAME_NOT_RESOLVED"),
     emptyStore).
Proof.
  apply (navigation_failure_is_500 MoreExamples.offlineWorld
           "https://nowhere.invalid"
           "example.com-2024-01-01T00-00-00.000Z"
           "net::ERR_NAME_NOT_RESOLVED").
  - discriminate.
  - reflexivity.
  - reflexivity.
Defined.
End FailureFacts.

(** * Further properties of [route.js] *)

Module RouteFacts.
Import Run.

Definition routeQualifies (el : Element) : Prop := Route.isPotentialSection el = true.

Lemma routeQualifies_size (el : Element) :
  routeQualifies el -> 100 < Dom.width (rect el) /\ 100 < Dom.height (rect el).
Proof.
  unfold routeQualifies, Route.isPotentialSection.
  destruct (_ || _); [discriminate|].
  rewrite andb_true_iff, !Qgt_bool_iff. tauto.
Qed.

Lemma route_getSections_qualify (c : Element) :
  Forall routeQualifies (Route.getSections c).
Proof.
  apply Forall_forall. intros el H. apply filter_In in H. apply H.
Qed.

Lemma route_found_qualify (pg : Page) : Forall routeQualifies (Route.foundSections pg).
Proof.
  unfold Route.foundSections.
  destruct (_ <=? 1)%nat; [|apply route_getSections_qualify].
  destruct (1 <? _)%nat; apply route_getSections_qualify.
Qed.

Lemma route_section_floor_large (pg : Page) (s : Route.Section_) :
  In s (Route.sections pg) ->
  100 < Route.width s /\ 100 < Route.height s /\
  (100 <= Clip.width (Route.initialClip s))%Z /\
  (100 <= Clip.height (Route.initialClip s))%Z.
Proof.
  unfold Route.sections. intros H. apply in_map_iff in H.
  destruct H as [el [<- Hel]].
  pose proof (route_found_qualify pg) as Hq. rewrite Forall_forall in Hq.
  destruct (routeQualifies_size el (Hq el Hel)) as [Hw Hh].
  cbn [Route.width Route.height Route.initialClip Clip.width Clip.height].
  split; [exact Hw|]. split; [exact Hh|].
  unfold Math_floor. split.
  - rewrite <- (Qfloor_Z 100). apply Qfloor_resp_le.
    change (inject_Z 100) with 100. lra.
  - rewrite <- (Qfloor_Z 100). apply Qfloor_resp_le.
    change (inject_Z 100) with 100. lra.
Qed.

(** The clamp, field by field. *)
Lemma route_clamp_shape (meta : Z * Z) (clip : Clip.t) :
  let clamped := Route.clampClip meta clip in
  Clip.left clamped = Z.max (Clip.left clip) 0 /\
  Clip.top clamped = Z.max (Clip.top clip) 0 /\
  Clip.width clamped = Z.min (Clip.width clip) (fst meta - Clip.left clip) /\
  Clip.height clamped = Z.min (Clip.height clip) (snd meta - Clip.top clip).
Proof.
  destruct meta as [mw mh]. destruct clip as [l t w h].
  unfold Route.clampClip. cbn [Clip.left Clip.top Clip.width Clip.height fst snd].
  destruct (mw <? l + w)%Z eqn:E1; cbn [Clip.left Clip.top Clip.width Clip.height];
  destruct (mh <? t + h)%Z eqn:E2; cbn [Clip.left Clip.top Clip.width Clip.height];
  destruct (l <? 0)%Z eqn:E3; cbn [Clip.left Clip.top Clip.width Clip.height];
  destruct (t <? 0)%Z eqn:E4; cbn [Clip.left Clip.top Clip.width Clip.height];
  try apply Z.ltb_lt in E1; try apply Z.ltb_ge in E1;
  try apply Z.ltb_lt in E2; try apply Z.ltb_ge in E2;
  try apply Z.ltb_lt in E3; try apply Z.ltb_ge in E3;
  try apply Z.ltb_lt in E4; try apply Z.ltb_ge in E4;
  repeat split; lia.
Qed.

(** X13.  For a clip whose left and top are not negative, the clamp of
    [route.js] leaves left and top as they are and brings the right and the
    bottom edge inside the raster. *)
Theorem route_clamp_inside_raster (meta : Z * Z) (clip : Clip.t) :
  (0 <= Clip.left clip)%Z ->
  (0 <= Clip.top clip)%Z ->
  let clamped := Route.clampClip meta clip in
  Clip.left clamped = Clip.left clip /\
  Clip.top clamped = Clip.top clip /\
  (Clip.left clamped + Clip.width clamped <= fst meta)%Z /\
  (Clip.top clamped + Clip.height clamped <= snd meta)%Z.
Proof.
  intros Hl Ht. pose proof (route_clamp_shape meta clip) as H.
  cbv zeta in *. destruct H as [Hleft [Htop [Hw Hh]]].
  repeat split; lia.
Qed.

Lemma route_clamp_inside_raster_witness :
  (Clip.left (Route.clampClip (1280, 2000)%Z (Clip.mk 1200 1950 200 200))
   + Clip.width (Route.clampClip (1280, 2000)%Z (Clip.mk 1200 1950 200 200))
   <= 1280)%Z.
Proof.
  apply (route_clamp_inside_raster (1280, 2000)%Z (Clip.mk 1200 1950 200 200));
    simpl; lia.
Defined.

(** X14.  The clamp of [route.js] only ever shrinks: left and top move to
    0 at most, never below their old value, and width and height never
    grow. *)
Theorem route_clamp_never_enlarges (meta : Z * Z) (clip : Clip.t) :
  let clamped := Route.clampClip meta clip in
  (0 <= Clip.left clamped)%Z /\ (0 <= Clip.top clamped)%Z /\
  (Clip.left clip <= Clip.left clamped)%Z /\
  (Clip.top clip <= Clip.top clamped)%Z /\
  (Clip.width clamped <= Clip.width clip)%Z /\
  (Clip.height clamped <= Clip.height clip)%Z.
Proof.
  pose proof (route_clamp_shape meta clip) as H.
  cbv zeta in *. destruct H as [Hleft [Htop [Hw Hh]]].
  repeat split; lia.
Qed.

(** X15.  Detector and clamp of [route.js] together: a section the
    detector returns is more than 100 pixels wide and high, so if its
    floored origin lies inside the raster, the clip handed to the extraction
    is a non-empty rectangle inside the raster. *)
Theorem route_clip_of_visible_section (pg : Page) (meta : Z * Z) (s : Route.Section_) :
  In s (Route.sections pg) ->
  (0 <= Math_floor (Route.x s) < fst meta)%Z ->
  (0 <= Math_floor (Route.y s) < snd meta)%Z ->
  let clip := Route.clipOf meta s in
  (0 <= Clip.left clip)%Z /\ (0 <= Clip.top clip)%Z /\
  (0 < Clip.width clip)%Z /\ (0 < Clip.height clip)%Z /\
  (Clip.left clip + Clip.width clip <= fst meta)%Z /\
  (Clip.top clip + Clip.height clip <= snd meta)%Z.
Proof.
  intros Hin Hx Hy.
  destruct (route_section_floor_large pg s Hin) as [_ [_ [Hw Hh]]].
  unfold Route.clipOf.
  pose proof (route_clamp_shape meta (Route.initialClip s)) as H.
  cbv zeta in H.
  cbn [Route.initialClip Clip.left Clip.top Clip.width Clip.height] in *.
  destruct H as [Hl [Ht [Hwmin Hhmin]]].
  cbv zeta. repeat split; lia.
Qed.

Lemma route_clip_of_visible_section_witness :
  (0 < Clip.width (Route.clipOf (1280, 800)%Z
                     (Route.mkSection 0 600 1280 200)))%Z.
Proof.
  apply (route_clip_of_visible_section Examples.bleedPage (1280, 800)%Z
           (Route.mkSection 0 600 1280 200)).
  - vm_compute. right. left. reflexivity.
  - vm_compute. split; [discriminate|reflexivity].
  - vm_compute. split; [discriminate|reflexivity].
Defined.

(** X16.  A section whose floored left is at or beyond the raster width,
    or whose floored top is at or beyond the raster height, gets a clip of
    width or height 0 or less from the clamp of [route.js]. *)
Theorem route_clip_beyond_raster_is_empty (meta : Z * Z) (s : Route.Section_) :
  (fst meta <= Math_floor (Route.x s))%Z \/ (snd meta <= Math_floor (Route.y s))%Z ->
  let clip := Route.clipOf meta s in
  (Clip.width clip <= 0)%Z \/ (Clip.height clip <= 0)%Z.
Proof.
  intros Hout. unfold Route.clipOf.
  pose proof (route_clamp_shape meta (Route.initialClip s)) as H.
  cbv zeta in H.
  cbn [Route.initialClip Clip.left Clip.top Clip.width Clip.height] in *.
  destruct H as [_ [_ [Hwmin Hhmin]]].
  cbv zeta. destruct Hout; [left|right]; lia.
Qed.

Lemma route_clip_beyond_raster_is_empty_witness :
  (Clip.width (Route.clipOf (1280, 800)%Z (Route.mkSection 1300 0 400 300)) <= 0)%Z
  \/ (Clip.height (Route.clipOf (1280, 800)%Z (Route.mkSection 1300 0 400 300)) <= 0)%Z.
Proof.
  apply (route_clip_beyond_raster_is_empty (1280, 800)%Z
           (Route.mkSection 1300 0 400 300)).
  left. vm_compute. discriminate.
Defined.
End RouteFacts.

Module RouteRunFacts.
Import Run.

(** What the loop of [route.js] prints: one line per section. *)
Fixpoint routeEventsFrom (meta : Z * Z) (i : nat) (sections : list Route.Section_)
  : list Event :=
  match sections with
  | [] => []
  | s :: rest =>
      Extracting (i + 1) (Route.clipOf meta s) :: routeEventsFrom meta (S i) rest
  end.

Lemma route_sliceFrom_returns (w : World) (sections : list Route.Section_) :
  forall i st st',
    (forall j, In (section_png j) (files st) -> (j <= i)%nat) ->
    Route.sliceFrom w i sections st = (Returned tt, st') ->
    files st' = rev (map section_png (seq (i + 1) (List.length sections))) ++ files st /\
    console st' = console st ++ routeEventsFrom (metadata w) i sections /\
    Forall (fun s => extract w (Route.clipOf (metadata w) s) = None) sections.
Proof.
  induction sections as [|s rest IH]; intros i st st' Hfresh Hrun; simpl in *.
  - inversion Hrun; subst. rewrite app_nil_r. auto.
  - unfold bind, print, extractToFile, orThrow, bind in Hrun. simpl in Hrun.
    destruct (extract w (Route.clipOf (metadata w) s)) as [msg|] eqn:Hex;
      simpl in Hrun; [discriminate|].
    apply IH in Hrun.
    + destruct Hrun as [Hf [Hc Hall]]. simpl in Hf, Hc. rewrite Hf, Hc.
      rewrite remove_absent.
      * split; [|split].
        -- replace (S i + 1)%nat with (S (i + 1)) by lia.
           rewrite <- app_assoc. reflexivity.
        -- rewrite <- app_assoc. reflexivity.
        -- constructor; assumption.
      * intros Hin. apply Hfresh in Hin. lia.
    + simpl. intros j [Hj|Hj].
      * inversion Hj. lia.
      * apply in_remove in Hj. destruct Hj as [Hj _]. apply Hfresh in Hj. lia.
Qed.

Lemma route_run_returns (w : World) (url : string) (n : nat) (st : Store) :
  Route.takeScreenshots w url emptyStore = (Returned n, st) ->
  exists pg,
    render w url = Returned pg /\
    n = List.length (Route.sections pg) /\
    files st = rev (map section_png (seq 1 n)) /\
    console st = routeEventsFrom (metadata w) 0 (Route.sections pg) /\
    Forall (fun s => extract w (Route.clipOf (metadata w) s) = None)
           (Route.sections pg).
Proof.
  unfold Route.takeScreenshots, bind, await.
  destruct (render w url) as [pg|msg]; [|discriminate].
  intros Hrun. exists pg. split; [reflexivity|].
  revert Hrun. unfold Route.sliceSections.
  destruct (Route.sections pg) as [|s rest] eqn:E.
  - simpl. unfold ret. intros H. inversion H; subst. repeat split; constructor.
  - rewrite <- E in *.
    replace (List.length (Route.sections pg) =? 0)%nat with false
      by (rewrite E; reflexivity).
    unfold bind at 1. unfold screenshot, bind, orThrow.
    destruct (capture w) as [msg|]; simpl; [discriminate|].
    destruct (Route.sliceFrom w 0 (Route.sections pg) _) as [[[]|msg] st2] eqn:Hloop;
      [|discriminate].
    apply (route_sliceFrom_returns w (Route.sections pg)) in Hloop;
      [|simpl; intros j [Hj|[]]; discriminate].
    destruct Hloop as [Hf [Hc Hall]]. simpl in Hf, Hc.
    unfold unlinkMaster, bind, orThrow.
    destruct (unlink w) as [msg|]; simpl; [discriminate|].
    unfold ret. intros H. inversion H; subst n st. clear H. cbn [files console].
    split; [reflexivity|]. split; [|split; [exact Hc|exact Hall]].
    rewrite Hf, remove_app. simpl.
    destruct (File_eq_dec master_png master_png) as [_|Hne]; [|congruence].
    rewrite app_nil_r. apply notin_remove.
    rewrite <- in_rev, in_map_iff. intros [k [Hk _]]. discriminate.
Qed.

(** X17.  The slicer of [route.js] has no skip: when [takeScreenshots]
    returns, the count is the number of detected sections, the directory
    holds exactly [section-1.png] to [section-n.png] and no master file, one
    extraction was logged per section with its clamped clip, and the image
    library accepted every one of these clips. *)
Theorem route_run_extracts_every_section
        (w : World) (url : string) (n : nat) (st : Store) :
  Route.takeScreenshots w url emptyStore = (Returned n, st) ->
  exists pg,
    render w url = Returned pg /\
    n = List.length (Route.sections pg) /\
    files st = rev (map section_png (seq 1 n)) /\
    console st = routeEventsFrom (metadata w) 0 (Route.sections pg) /\
    Forall (fun s => extract w (Route.clipOf (metadata w) s) = None)
           (Route.sections pg).
Proof. apply route_run_returns. Qed.

Lemma route_run_extracts_every_section_witness :
  exists pg,
    render (Examples.worldOf Examples.stackPage (1280, 1000)%Z) "https://example.com"
      = Returned pg /\
    1%nat = List.length (Route.sections pg) /\
    files (snd (Route.takeScreenshots
                  (Examples.worldOf Examples.stackPage (1280, 1000)%Z)
                  "https://example.com" emptyStore))
      = rev (map section_png (seq 1 1)) /\
    console (snd (Route.takeScreenshots
                    (Examples.worldOf Examples.stackPage (1280, 1000)%Z)
                    "https://example.com" emptyStore))
      = routeEventsFrom (metadata (Examples.worldOf Examples.stackPage (1280, 1000)%Z))
                        0 (Route.sections pg) /\
    Forall (fun s => extract (Examples.worldOf Examples.stackPage (1280, 1000)%Z)
                       (Route.clipOf (1280, 1000)%Z s) = None)
           (Route.sections pg).
Proof.
  apply (route_run_extracts_every_section
           (Examples.worldOf Examples.stackPage (1280, 1000)%Z)
           "https://example.com" 1).
  vm_compute. reflexivity.
Defined.
(** X18.  When the handler of [route.js] answers 200, the paths are
    numbered 1, 2, ... without gap, each of them names a file that is in
    the directory, the directory holds nothing else, and the master file is
    gone. *)
Theorem route_POST_lists_the_files
        (w : World) (url : option string)
        (paths : list ScreenshotPath) (st : Store) :
  RouteHandler.POST w url = (mkResponse 200 (screenshots paths), st) ->
  map index paths = seq 1 (List.length paths) /\
  files st = rev (map section_png (map index paths)) /\
  (forall p, In p paths -> In (section_png (index p)) (files st)) /\
  ~ In master_png (files st).
Proof.
  unfold RouteHandler.POST.
  destruct url as [[|a u]|]; try discriminate.
  set (url := String a u).
  unfold bind at 1, await at 1.
  destruct (prepare w url) as [uniqueDir|msg]; [|discriminate].
  unfold bind at 1.
  destruct (Route.takeScreenshots w url emptyStore) as [[n|msg] st1] eqn:Hrun;
    [|discriminate].
  unfold ret. intros H. inversion H; subst paths st1. clear H.
  destruct (route_run_returns w url n st Hrun) as [pg [_ [_ [Hfiles _]]]].
  assert (map index (RouteHandler.screenshotPaths uniqueDir n) = seq 1 n) as Hidx.
  { unfold RouteHandler.screenshotPaths. rewrite map_map. simpl.
    rewrite <- seq_shift, map_ext with (g := S); [reflexivity|].
    intros i. lia. }
  assert (List.length (RouteHandler.screenshotPaths uniqueDir n) = n) as Hlen.
  { unfold RouteHandler.screenshotPaths. now rewrite length_map, length_seq. }
  rewrite Hidx, Hlen, Hfiles. repeat split.
  - intros p Hp. rewrite <- in_rev. apply in_map. rewrite <- Hidx.
    apply in_map. exact Hp.
  - rewrite <- in_rev, in_map_iff. intros [k [Hk _]]. discriminate.
Qed.

Lemma route_POST_lists_the_files_witness :
  ~ In master_png
      (files (snd (RouteHandler.POST
                     (Examples.worldOf Examples.columnsPage (1280, 500)%Z)
                     (Some "https://example.com"%string)))).
Proof.
  apply (route_POST_lists_the_files
           (Examples.worldOf Examples.columnsPage (1280, 500)%Z)
           (Some "https://example.com"%string)
           [mkPath "example.com-2024-01-01T00-00-00.000Z" 1;
            mkPath "example.com-2024-01-01T00-00-00.000Z" 2]).
  vm_compute. reflexivity.
Defined.

(** X19.  The detector of [route.js] looks one level below its container
    ([main] if there is one, else the body) and no further.  It returns
    nothing exactly when the container has no qualifying child; a single
    section it returns is the only qualifying child of the container and has
    itself at most one qualifying child; two or more qualifying children of
    the container are returned as they are. *)
Theorem route_detector_looks_one_level_down (pg : Page) :
  let container :=
    match querySelector "main" (body pg) with
    | Some mainEl => mainEl
    | None => body pg
    end in
  (Route.foundSections pg = [] <-> Route.getSections container = []) /\
  (forall el, Route.foundSections pg = [el] ->
              Route.getSections container = [el] /\
              (List.length (Route.getSections el) <= 1)%nat) /\
  ((2 <= List.length (Route.getSections container))%nat ->
   Route.foundSections pg = Route.getSections container).
Proof.
  intros container. unfold Route.foundSections. fold container.
  destruct (Route.getSections container) as [|a [|b l]] eqn:E; simpl.
  - rewrite E. simpl. split; [tauto|]. split; [discriminate|]. lia.
  - destruct (Route.getSections a) as [|c [|d l']] eqn:Ea; simpl.
    + split; [split; discriminate|]. split; [|lia].
      intros el H. inversion H; subst. rewrite Ea. simpl. split; [reflexivity|lia].
    + split; [split; discriminate|]. split; [|lia].
      intros el H. inversion H; subst. rewrite Ea. simpl. split; [reflexivity|lia].
    + split; [split; discriminate|]. split; [discriminate|lia].
  - split; [split; discriminate|]. split; [discriminate|reflexivity].
Qed.

Lemma route_detector_looks_one_level_down_witness :
  Route.getSections (body Examples.stackPage) = [Examples.stackOuter] /\
  (List.length (Route.getSections Examples.stackOuter) <= 1)%nat.
Proof.
  apply (proj1 (proj2 (route_detector_looks_one_level_down Examples.stackPage))).
  vm_compute. reflexivity.
Defined.
End RouteRunFacts.

Module HomeFacts.
Import Run.

(** X20.  After [handleSubmit], whatever [fetch] did: the spinner is off
    and the URL is unchanged; if an error is shown, the list of screenshots
    is empty; if none is shown, the request was answered with a 2xx status
    and the list is the one of the answer. *)
Theorem handleSubmit_settles (fetched : Outcome Response) (st : Home.State) :
  let st' := Home.handleSubmit fetched st in
  Home.loading st' = false /\
  Home.url st' = Home.url st /\
  (Home.error st' <> None -> Home.screenshots st' = Some []) /\
  (Home.error st' = None ->
   exists response,
     fetched = Returned response /\ Home.ok response = true /\
     Home.screenshots st' = Home.screenshotsField (payload response)).
Proof.
  unfold Home.handleSubmit, Home.submitEnd, Home.submitStart.
  destruct fetched as [response|message]; simpl.
  - destruct (Home.ok response) eqn:Hok; simpl.
    + repeat split; [congruence|]. intros _. exists response. auto.
    + repeat split; discriminate.
  - repeat split; discriminate.
Qed.


(** X22.  The cards the page renders for the paths of the handler carry
    the numbers of the files: card [k] shows [section-k.png], and the
    headings run from 1 to [n]. *)
Theorem cards_follow_file_numbers (uniqueDir : string) (n : nat) :
  Home.cards (Part000.screenshotPaths uniqueDir n) =
    map (fun p => (index p, p)) (Part000.screenshotPaths uniqueDir n) /\
  map fst (Home.cards (Part000.screenshotPaths uniqueDir n)) = seq 1 n.
Proof.
  assert (forall k m,
            combine (seq (S k) m) (map (fun i => mkPath uniqueDir (i + 1)) (seq k m))
            = map (fun p => (index p, p))
                  (map (fun i => mkPath uniqueDir (i + 1)) (seq k m))) as H.
  { intros k m. revert k. induction m as [|m IH]; intros k; [reflexivity|].
    simpl. rewrite IH. replace (k + 1)%nat with (S k) by lia. reflexivity. }
  assert (Home.cards (Part000.screenshotPaths uniqueDir n) =
          map (fun p => (index p, p)) (Part000.screenshotPaths uniqueDir n)) as Hc.
  { unfold Home.cards, Part000.screenshotPaths.
    rewrite length_map, length_seq. apply H. }
  split; [exact Hc|].
  rewrite Hc, map_map. simpl. unfold Part000.screenshotPaths.
  rewrite map_map. simpl. rewrite <- seq_shift. apply map_ext. intros i. lia.
Qed.

Lemma handleSubmit_settles_witness :
  Home.screenshots (Home.handleSubmit (Thrown "Failed to fetch") Home.initial)
  = Some [].
Proof.
  apply (handleSubmit_settles (Thrown "Failed to fetch") Home.initial).
  vm_compute. discriminate.
Defined.
End HomeFacts.
